(** * RAW batch converter: a shallow embedding of
      [src/image/convert-downsize-pipeline.py]

    The script walks a directory tree, decodes every RAW file it finds,
    shrinks it and writes it under a mirror tree.  The embedding keeps the
    script's own functions ([_build_save_kwargs], [process_raw],
    [_do_convert], [main], [convert]) and models what they call in
    [pathlib], Pillow, rawpy, tqdm and Typer only as far as the script
    observes it.

    Conventions.
    - A Python [str] is a [string]; case conversion acts on the ASCII
      letters (no character outside ASCII lowercases to a letter of
      [".cr2"] or [".dng"]).
    - A [pathlib.Path] is the list of its components below a fixed base
      (the working directory or the root); [[]] is the base itself.
    - The file system is a finite map from paths to entries.
    - An exception is a value of [exn]; a statement that may raise returns
      a [result] together with the world it leaves behind. *)

From Stdlib Require Import ZArith QArith Qround Qabs Lia Ascii String.
From stdpp Require Import base gmap strings list fin_maps.

Close Scope Q_scope.
Open Scope string_scope.
Open Scope list_scope.
Open Scope Z_scope.

(** ** Python strings *)

Module PyStr.

Definition is_upper (c : ascii) : bool :=
  let n := nat_of_ascii c in (65 <=? n)%nat && (n <=? 90)%nat.

Definition is_lower (c : ascii) : bool :=
  let n := nat_of_ascii c in (97 <=? n)%nat && (n <=? 122)%nat.

Definition lower_char (c : ascii) : ascii :=
  if is_upper c then ascii_of_nat (nat_of_ascii c + 32) else c.

Definition upper_char (c : ascii) : ascii :=
  if is_lower c then ascii_of_nat (nat_of_ascii c - 32) else c.

(** [s.lower()] *)
Fixpoint lower (s : string) : string :=
  match s with
  | EmptyString => EmptyString
  | String c r => String (lower_char c) (lower r)
  end.

(** [s.upper()] *)
Fixpoint upper (s : string) : string :=
  match s with
  | EmptyString => EmptyString
  | String c r => String (upper_char c) (upper r)
  end.

(** [s.rfind(c)], with [None] for Python's [-1]. *)
Fixpoint rfind (c : ascii) (s : string) : option nat :=
  match s with
  | EmptyString => None
  | String a r =>
      match rfind c r with
      | Some i => Some (S i)
      | None => if Ascii.eqb a c then Some 0%nat else None
      end
  end.

(** [c in s] for a one-character [c]. *)
Fixpoint contains (c : ascii) (s : string) : bool :=
  match s with
  | EmptyString => false
  | String a r => Ascii.eqb a c || contains c r
  end.

(** [s.startswith(c)] for a one-character [c]. *)
Definition startswith (c : ascii) (s : string) : bool :=
  match s with
  | EmptyString => false
  | String a _ => Ascii.eqb a c
  end.

(** [s[i:]] and [s[:n]] for indices within the string. *)
Definition slice_from (i : nat) (s : string) : string :=
  substring i (String.length s - i) s.

Definition slice_to (n : nat) (s : string) : string :=
  substring 0 n s.

End PyStr.

(** ** Exceptions and results *)

Inductive exn : Type :=
| Exit (code : Z)            (* typer.Exit *)
| UsageError                 (* click: no such command *)
| ValueError
| KeyError
| ZeroDivisionError
| LibRawError                (* rawpy could not read or decode the file *)
| FileExistsError
| NotADirectoryError
| IsADirectoryError
| FileNotFoundError.

Inductive result (A : Type) : Type :=
| Ok (a : A)
| Raise (e : exn).
Arguments Ok {A} a.
Arguments Raise {A} e.

(** ** pathlib *)

Module Pathlib.

Abbreviation path := (list string).

(** [p.name] *)
Definition name (p : path) : string := List.last p "".

(** [p.parent] *)
Definition parent (p : path) : path := removelast p.

(** [PurePath.suffix]:
    [i = name.rfind('.'); name[i:] if 0 < i < len(name) - 1 else ''] *)
Definition suffix_of (nm : string) : string :=
  match PyStr.rfind "." nm with
  | Some i =>
      if (0 <? i)%nat && (i <? String.length nm - 1)%nat
      then PyStr.slice_from i nm
      else ""
  | None => ""
  end.

Definition suffix (p : path) : string := suffix_of (name p).

(** [PurePath.with_suffix]: the suffix may not hold a separator, must
    start with a dot unless empty, may not be a lone dot; the path must
    have a name. *)
Definition with_suffix (p : path) (suf : string) : result path :=
  if PyStr.contains "/" suf then Raise ValueError
  else if (negb (String.eqb suf "") && negb (PyStr.startswith "." suf))
          || String.eqb suf "."
  then Raise ValueError
  else
    let nm := name p in
    if String.eqb nm "" then Raise ValueError
    else
      let old_suffix := suffix p in
      let nm' :=
        if String.eqb old_suffix "" then nm +:+ suf
        else PyStr.slice_to (String.length nm - String.length old_suffix) nm
             +:+ suf in
      Ok (parent p ++ [nm']).

(** The components of [p] below [base], when [p] lies under it. *)
Fixpoint strip_prefix (base p : path) : option path :=
  match base, p with
  | [], _ => Some p
  | b :: base', c :: p' =>
      if String.eqb b c then strip_prefix base' p' else None
  | _ :: _, [] => None
  end.

(** [p.relative_to(base)] *)
Definition relative_to (p base : path) : result path :=
  match strip_prefix base p with
  | Some rel => Ok rel
  | None => Raise ValueError
  end.

(** [a / b] for a relative [b]. *)
Definition joinpath (a b : path) : path := a ++ b.

End Pathlib.
Import Pathlib.

(** ** Format policy *)

Inductive pyval : Type :=
| PyInt (z : Z)
| PyBool (b : bool).

Global Instance pyval_eq_dec : EqDecision pyval.
Proof. solve_decision. Defined.

(** [{"quality": quality, "optimize": True} if fmt == "jpeg" else {}] *)
Definition _build_save_kwargs (fmt : string) (quality : Z) : gmap string pyval :=
  if String.eqb fmt "jpeg"
  then <["quality" := PyInt quality]> (<["optimize" := PyBool true]> ∅)
  else ∅.

(** ** Pillow: rasters and [Image.thumbnail] *)

Record raster (pixels : Type) : Type := Raster {
  width : Z;
  height : Z;
  data : pixels
}.
Arguments Raster {pixels} _ _ _.
Arguments width {pixels} _.
Arguments height {pixels} _.
Arguments data {pixels} _.

Module Pillow.

(** [max(min(math.floor(number), math.ceil(number), key=key), 1)];
    [min] keeps its first argument on a tie. *)
Definition round_aspect (number : Q) (key : Z -> Q) : Z :=
  let lo := Qfloor number in
  let hi := Qceiling number in
  Z.max (if Qle_bool (key lo) (key hi) then lo else hi) 1.

(** The inner function of [Image.thumbnail] that picks the target size
    ([None]: the image already fits).  Pillow computes [aspect] and the
    products in binary floating point; they are exact rationals here. *)
Definition preserve_aspect_ratio (w h : Z) (size : Z * Z)
  : result (option (Z * Z)) :=
  let '(x, y) := size in
  if (w <=? x) && (h <=? y) then Ok None
  else if (h =? 0) || (y =? 0) then Raise ZeroDivisionError
  else
    let aspect := (inject_Z w / inject_Z h)%Q in
    if Qle_bool aspect (inject_Z x / inject_Z y)%Q
    then
      let x' := round_aspect (inject_Z y * aspect)%Q
                  (fun n => Qabs (aspect - inject_Z n / inject_Z y)%Q) in
      Ok (Some (x', y))
    else
      let y' := round_aspect (inject_Z x / aspect)%Q
                  (fun n => if n =? 0 then 0%Q
                            else Qabs (aspect - inject_Z x / inject_Z n)%Q) in
      Ok (Some (x, y')).

(** [img.thumbnail(size, resample)] on an in-memory image: resize to the
    size picked above unless the image has it already. *)
Definition thumbnail {pixels} (resample : raster pixels -> Z * Z -> pixels)
    (img : raster pixels) (size : Z * Z) : result (raster pixels) :=
  match preserve_aspect_ratio (width img) (height img) size with
  | Raise e => Raise e
  | Ok None => Ok img
  | Ok (Some (x, y)) =>
      if (width img =? x) && (height img =? y) then Ok img
      else Ok (Raster x y (resample img (x, y)))
  end.

End Pillow.

(** ** The external capabilities: rawpy and Pillow codecs *)

Class Imaging : Type := {
  content : Type;                 (* bytes of a file *)
  pixels : Type;                  (* 8-bit RGB samples of a raster *)
  (* rawpy.imread(..).postprocess(use_camera_wb, no_auto_bright, 8 bps) *)
  raw_decode : content -> option (raster pixels);
  (* Image.Resampling.LANCZOS *)
  lanczos : raster pixels -> Z * Z -> pixels;
  (* the encoder registered under an upper-case format name, if any *)
  pil_encode : string -> gmap string pyval -> raster pixels -> option content
}.

(** ** The world the script acts on *)

Inductive entry `{Imaging} : Type :=
| File (c : content)
| Dir.
Arguments File {_} c.
Arguments Dir {_}.

(** What [typer.echo] prints; the elapsed time of the summary is left out. *)
Inductive event : Type :=
| NoRawFiles                              (* "No RAW files found." *)
| Skipping (raw_file output_path : path)  (* "Skipping .. (already exists)" *)
| Converting (raw_file output_path : path)
| Done (total skips : nat).               (* "Done! .. files processed .. skipped" *)

Record world `{Imaging} : Type := World {
  files : gmap path entry;           (* the file system *)
  console : list event;              (* standard output, oldest first *)
  pbar : nat;                        (* position of the current tqdm bar *)
  conversions : list (path * path)   (* calls of [process_raw] so far *)
}.
Arguments World {_} _ _ _ _.

Section Pipeline.
Context `{Imaging}.

Definition set_files (s : gmap path entry) (w : world) : world :=
  World s (console w) (pbar w) (conversions w).

(** *** A state and exception monad *)

Definition prog (A : Type) : Type := world -> result A * world.

Definition ret {A} (a : A) : prog A := fun w => (Ok a, w).

Definition raise {A} (e : exn) : prog A := fun w => (Raise e, w).

Definition bind {A B} (m : prog A) (k : A -> prog B) : prog B :=
  fun w =>
    match m w with
    | (Ok a, w') => k a w'
    | (Raise e, w') => (Raise e, w')
    end.

Definition lift {A} (r : result A) : prog A := fun w => (r, w).

Notation "x <- m ;; k" := (bind m (fun x => k))
  (at level 100, m at next level, right associativity).
Notation "m ;;; k" := (bind m (fun _ => k))
  (at level 100, right associativity).

(** *** File system operations *)

(** The entry at [p]; the base directory always exists. *)
Definition entry_at (s : gmap path entry) (p : path) : option entry :=
  match p with
  | [] => Some Dir
  | _ => s !! p
  end.

(** [p.exists()] *)
Definition path_exists (p : path) : prog bool :=
  fun w => (Ok (bool_decide (is_Some (entry_at (files w) p))), w).

(** [os.makedirs]-like creation of [base/rest], [base] being a directory:
    missing components are created, an existing directory is kept, a
    file in the way is an error. *)
Fixpoint mkdir_from (s : gmap path entry) (base rest : path)
  : result (gmap path entry) :=
  match rest with
  | [] => Ok s
  | d :: rest' =>
      let p := base ++ [d] in
      match s !! p with
      | Some Dir => mkdir_from s p rest'
      | Some (File _) =>
          Raise (match rest' with [] => FileExistsError | _ => NotADirectoryError end)
      | None => mkdir_from (<[p := Dir]> s) p rest'
      end
  end.

(** [p.mkdir(parents=True, exist_ok=True)] *)
Definition mkdir_parents (p : path) : prog unit :=
  fun w =>
    match mkdir_from (files w) [] p with
    | Ok s => (Ok tt, set_files s w)
    | Raise e => (Raise e, w)
    end.

(** [rawpy.imread(str(p))] followed by [postprocess]. *)
Definition imread_postprocess (p : path) : prog (raster pixels) :=
  fun w =>
    match entry_at (files w) p with
    | Some (File c) =>
        match raw_decode c with
        | Some rgb => (Ok rgb, w)
        | None => (Raise LibRawError, w)
        end
    | _ => (Raise LibRawError, w)
    end.

(** [img.save(p, format=.., **kwargs)]: the encoder is looked up first,
    then the file is opened for writing and filled. *)
Definition save (img : raster pixels) (p : path) (format : string)
    (kwargs : gmap string pyval) : prog unit :=
  fun w =>
    match pil_encode format kwargs img with
    | None => (Raise KeyError, w)
    | Some bytes =>
        match entry_at (files w) p with
        | Some Dir => (Raise IsADirectoryError, w)
        | _ =>
            match entry_at (files w) (parent p) with
            | Some Dir => (Ok tt, set_files (<[p := File bytes]> (files w)) w)
            | Some (File _) => (Raise NotADirectoryError, w)
            | None => (Raise FileNotFoundError, w)
            end
        end
    end.

(** [d.rglob("*")]: every entry, file or directory, strictly below [d]. *)
Definition is_under (d p : path) : bool :=
  match strip_prefix d p with
  | Some (_ :: _) => true
  | _ => false
  end.

Definition rglob (s : gmap path entry) (d : path) : list path :=
  List.filter (is_under d) (map_to_list s).*1.

(** *** Console and progress bar *)

Definition echo (e : event) : prog unit :=
  fun w => (Ok tt, World (files w) (console w ++ [e]) (pbar w) (conversions w)).

(** [tqdm(total=..)] opens a fresh bar. *)
Definition tqdm_open : prog unit :=
  fun w => (Ok tt, World (files w) (console w) 0%nat (conversions w)).

(** [pbar.update(n)] *)
Definition pbar_update (n : nat) : prog unit :=
  fun w => (Ok tt, World (files w) (console w) (pbar w + n)%nat (conversions w)).

Definition note_conversion (src dst : path) : prog unit :=
  fun w => (Ok tt, World (files w) (console w) (pbar w) (conversions w ++ [(src, dst)])).

(** *** The script *)

Definition RAW_EXT : gset string := {[ ".cr2"; ".dng" ]}.

(** Lines 40-41:
    [if resize and resize > 0: img.thumbnail((resize, resize), LANCZOS)] *)
Definition resize_step (resize : option Z) (img : raster pixels)
  : result (raster pixels) :=
  match resize with
  | None => Ok img
  | Some n =>
      if negb (n =? 0) && (0 <? n)
      then Pillow.thumbnail lanczos img (n, n)
      else Ok img
  end.

Definition process_raw (input_path output_path : path)
    (resize : option Z) (quality : Z) (fmt : string) : prog unit :=
  rgb <- imread_postprocess input_path ;;
  img <- lift (resize_step resize rgb) ;;
  mkdir_parents (parent output_path) ;;;
  save img output_path (PyStr.upper fmt)
       (_build_save_kwargs (PyStr.lower fmt) quality).

(** Lines 88-89: the destination of one discovered file. *)
Definition output_path_of (input_dir output_dir : path) (fmt : string)
    (raw_file : path) : result path :=
  match relative_to raw_file input_dir with
  | Raise e => Raise e
  | Ok rel_path =>
      match with_suffix rel_path ("." +:+ PyStr.lower fmt) with
      | Raise e => Raise e
      | Ok renamed => Ok (joinpath output_dir renamed)
      end
  end.

(** Lines 87-106: the body of the [for] loop, threading [skips]. *)
Definition convert_one (input_dir output_dir : path) (fmt : string)
    (resize : option Z) (quality : Z) (raw_file : path) (skips : nat)
  : prog nat :=
  output_path <- lift (output_path_of input_dir output_dir fmt raw_file) ;;
  present <- path_exists output_path ;;
  if (present : bool) then
    echo (Skipping raw_file output_path) ;;;
    pbar_update 1 ;;;
    ret (S skips)
  else
    echo (Converting raw_file output_path) ;;;
    note_conversion raw_file output_path ;;;
    process_raw raw_file output_path resize quality fmt ;;;
    pbar_update 1 ;;;
    ret skips.

Fixpoint convert_all (input_dir output_dir : path) (fmt : string)
    (resize : option Z) (quality : Z) (raw_files : list path) (skips : nat)
  : prog nat :=
  match raw_files with
  | [] => ret skips
  | raw_file :: rest =>
      skips' <- convert_one input_dir output_dir fmt resize quality raw_file skips ;;
      convert_all input_dir output_dir fmt resize quality rest skips'
  end.

(** Line 79: [[p for p in input_dir.rglob("*") if p.suffix.lower() in RAW_EXT]] *)
Definition discover (s : gmap path entry) (input_dir : path) : list path :=
  List.filter (fun p => bool_decide (PyStr.lower (suffix p) ∈ RAW_EXT))
              (rglob s input_dir).

Definition _do_convert (input_dir output_dir : path) (fmt : string)
    (resize : option Z) (quality : Z) : prog unit :=
  fun w =>
    let raw_files := discover (files w) input_dir in
    (match raw_files with
     | [] => echo NoRawFiles ;;; raise (Exit 1)
     | _ :: _ =>
         let total := length raw_files in
         tqdm_open ;;;
         skips <- convert_all input_dir output_dir fmt resize quality raw_files 0%nat ;;
         echo (Done total skips)
     end) w.

(** *** The command-line surface (Typer) *)

(** The options a command line may leave out. *)
Record options : Type := Options {
  opt_fmt : option string;
  opt_resize : option Z;
  opt_quality : option Z
}.

(** The callback: [--format jpeg], [--resize 384], [--quality 92]. *)
Definition main (input_dir output_dir : path) (o : options) : prog unit :=
  _do_convert input_dir output_dir
    (default "jpeg" (opt_fmt o))
    (Some (default 384 (opt_resize o)))
    (default 92 (opt_quality o)).

(** The sub-command: [fmt="jpeg"], [resize=384], [quality=92]. *)
Definition convert (input_dir output_dir : path) (o : options) : prog unit :=
  _do_convert input_dir output_dir
    (default "jpeg" (opt_fmt o))
    (Some (default 384 (opt_resize o)))
    (default 92 (opt_quality o)).

(** A parsed command line: the callback's arguments, then possibly a
    sub-command name with its own arguments. *)
Record invocation : Type := Invocation {
  inv_input : path;
  inv_output : path;
  inv_options : options;
  inv_command : option (string * (path * path * options))
}.

(** [app()]: a Typer application with a callback is a Click group.  The
    group resolves the sub-command name, runs its callback, and only
    then runs the sub-command; [invoke_without_command=True] lets the
    callback run alone when no name is given. *)
Definition app (inv : invocation) : prog unit :=
  match inv_command inv with
  | None => main (inv_input inv) (inv_output inv) (inv_options inv)
  | Some (cmd, (i, o, opts)) =>
      if String.eqb cmd "convert" then
        main (inv_input inv) (inv_output inv) (inv_options inv) ;;;
        convert i o opts
      else raise UsageError
  end.

End Pipeline.

(** ** Vocabulary of the statements *)

Section Vocabulary.
Context `{Imaging}.

(** Everything but the file system is as before. *)
Definition same_session (w w' : world) : Prop :=
  console w' = console w /\ pbar w' = pbar w /\
  conversions w' = conversions w.

(** The world right after [tqdm(total=..)] opened its bar. *)
Definition opened (w : world) : world :=
  World (files w) (console w) 0%nat (conversions w).

(** The world right after the "Converting" notice of one file. *)
Definition announced (raw_file output_path : path) (w : world) : world :=
  World (files w) (console w ++ [Converting raw_file output_path]) (pbar w)
        (conversions w ++ [(raw_file, output_path)]).

(** The world right after one file was skipped. *)
Definition skipped (raw_file output_path : path) (w : world) : world :=
  World (files w) (console w ++ [Skipping raw_file output_path])
        (pbar w + 1)%nat (conversions w).

(** The world right after [pbar.update(1)]. *)
Definition advanced (w : world) : world :=
  World (files w) (console w) (pbar w + 1)%nat (conversions w).

(** The world right after the summary line. *)
Definition summarised (total skips : nat) (w : world) : world :=
  World (files w) (console w ++ [Done total skips]) (pbar w) (conversions w).

(** A per-file notice about one of the files of [l]. *)
Definition mentions (l : list path) (ev : event) : Prop :=
  match ev with
  | Skipping raw_file _ | Converting raw_file _ => raw_file ∈ l
  | NoRawFiles | Done _ _ => False
  end.

(** The skip notice of a file whose destination is computed. *)
Definition skip_notice (input_dir output_dir : path) (fmt : string)
    (raw_file : path) : event :=
  match output_path_of input_dir output_dir fmt raw_file with
  | Ok output_path => Skipping raw_file output_path
  | Raise _ => NoRawFiles
  end.

(** The format strings [with_suffix] accepts behind a dot. *)
Definition suffix_accepted (fmt : string) : bool :=
  negb (PyStr.contains "/" fmt) && negb (String.eqb fmt "").

(** The notice the loop prints for one file: a skip or a conversion to
    the destination computed for it. *)
Definition notice_for (input_dir output_dir : path) (fmt : string)
    (raw_file : path) (ev : event) : Prop :=
  exists output_path,
    output_path_of input_dir output_dir fmt raw_file = Ok output_path /\
    (ev = Skipping raw_file output_path \/
     ev = Converting raw_file output_path).

Definition is_skip (ev : event) : bool :=
  match ev with
  | Skipping _ _ => true
  | _ => false
  end.

(** The exceptions lines 36-44 can raise. *)
Definition conversion_error (e : exn) : Prop :=
  e = LibRawError \/ e = ZeroDivisionError \/ e = FileExistsError \/
  e = NotADirectoryError \/ e = KeyError \/ e = IsADirectoryError \/
  e = FileNotFoundError.

End Vocabulary.

(** ** A concrete instance, for running the script on examples

    A RAW file holds its two dimensions; an encoded image holds the
    dimensions of the raster and the number of encoder options. *)

Module Demo.

#[local] Instance demo_imaging : Imaging := {|
  content := list Z;
  pixels := unit;
  raw_decode c :=
    match c with
    | [w; h] => Some (Raster w h tt)
    | _ => None
    end;
  lanczos _ _ := tt;
  pil_encode format kwargs img :=
    if bool_decide (format ∈ ["JPEG"; "PNG"; "WEBP"])
    then Some [width img; height img; Z.of_nat (size kwargs)]
    else None
|}.

(** [in/a.cr2] (4000x3000), [in/b/c.DNG] (3000x4000), [in/z.Cr2] (300x200)
    and [in/notes.txt]. *)
Definition shoot : gmap path entry :=
  <[ ["in"] := Dir ]>
  (<[ ["in"; "a.cr2"] := File [4000; 3000] ]>
  (<[ ["in"; "b"] := Dir ]>
  (<[ ["in"; "b"; "c.DNG"] := File [3000; 4000] ]>
  (<[ ["in"; "z.Cr2"] := File [300; 200] ]>
  (<[ ["in"; "notes.txt"] := File [1] ]> ∅))))).

(** The same tree with a directory called [album.cr2]. *)
Definition shoot_with_album : gmap path entry :=
  <[ ["in"; "album.cr2"] := Dir ]> shoot.

(** The same tree with an unreadable [in/a.cr2]. *)
Definition shoot_corrupt : gmap path entry :=
  <[ ["in"; "a.cr2"] := File [] ]> shoot.

(** A tree without RAW files. *)
Definition no_raw : gmap path entry :=
  <[ ["in"] := Dir ]> (<[ ["in"; "notes.txt"] := File [1] ]> ∅).

Definition start (s : gmap path entry) : world := World s [] 0%nat [].

(** A decoded 4000x3000 raster, and what is written for it at 384. *)
Definition landscape : raster pixels := Raster 4000 3000 tt.

Definition landscape_jpeg : entry := File [384; 288; 2].

Definition defaults : options := Options None None None.

End Demo.

(** * Properties *)

(** ** Strings and paths *)

Section StringFacts.

Lemma substring_zero (s : string) : substring 0 0 s = "".
Proof. by destruct s. Qed.

Lemma append_cons (c : ascii) (x y : string) :
  String c x +:+ y = String c (x +:+ y).
Proof. reflexivity. Qed.

Lemma append_empty_r (s : string) : s +:+ "" = s.
Proof. induction s as [|c s IH]; [done|]. by rewrite append_cons, IH. Qed.

Lemma substring_full (s : string) : substring 0 (String.length s) s = s.
Proof. induction s as [|c s IH]; simpl; [done|]. by rewrite IH. Qed.

Lemma substring_split (s : string) :
  forall i : nat, (i <= String.length s)%nat ->
    substring 0 i s +:+ substring i (String.length s - i) s = s.
Proof.
  induction s as [|c s IH]; intros i Hi.
  - by destruct i.
  - destruct i as [|i].
    + rewrite substring_zero, Nat.sub_0_r. apply substring_full.
    + simpl in *. rewrite append_cons. f_equal. apply IH. lia.
Qed.

Lemma substring_tail_length (s : string) :
  forall i : nat, (i <= String.length s)%nat ->
    String.length (substring i (String.length s - i) s)
    = (String.length s - i)%nat.
Proof.
  induction s as [|c s IH]; intros i Hi.
  - by destruct i.
  - destruct i as [|i].
    + by rewrite Nat.sub_0_r, substring_full.
    + simpl in *. apply IH. lia.
Qed.

Lemma rfind_bound (c : ascii) (s : string) (i : nat) :
  PyStr.rfind c s = Some i -> (i < String.length s)%nat.
Proof.
  revert i. induction s as [|a s IH]; intros i; simpl; [done|].
  destruct (PyStr.rfind c s) as [j|].
  - intros [= <-]. specialize (IH j eq_refl). lia.
  - destruct (Ascii.eqb a c); intros [= <-]. lia.
Qed.

(** A name is its stem followed by its suffix. *)
Lemma name_stem_suffix (nm : string) :
  PyStr.slice_to (String.length nm - String.length (suffix_of nm)) nm
    +:+ suffix_of nm = nm.
Proof.
  unfold suffix_of, PyStr.slice_to, PyStr.slice_from.
  destruct (PyStr.rfind "." nm) as [i|] eqn:Hi.
  - apply rfind_bound in Hi.
    destruct ((0 <? i)%nat && (i <? String.length nm - 1)%nat).
    + rewrite substring_tail_length by lia.
      replace (String.length nm - (String.length nm - i))%nat with i by lia.
      apply substring_split. lia.
    + simpl. rewrite Nat.sub_0_r, substring_full. apply append_empty_r.
  - simpl. rewrite Nat.sub_0_r, substring_full. apply append_empty_r.
Qed.

Lemma lower_char_slash (c : ascii) :
  Ascii.eqb (PyStr.lower_char c) "/" = Ascii.eqb c "/".
Proof.
  destruct c as [[] [] [] [] [] [] [] []]; reflexivity.
Qed.

Lemma contains_slash_lower (s : string) :
  PyStr.contains "/" (PyStr.lower s) = PyStr.contains "/" s.
Proof.
  induction s as [|c s IH]; simpl; [done|].
  by rewrite lower_char_slash, IH.
Qed.

Lemma lower_empty (s : string) : PyStr.lower s = "" <-> s = "".
Proof. by destruct s. Qed.

Lemma strip_prefix_app (base : path) :
  forall p rel, strip_prefix base p = Some rel -> p = base ++ rel.
Proof.
  induction base as [|b base IH]; intros p rel; simpl.
  - by intros [= ->].
  - destruct p as [|c p]; [done|].
    destruct (String.eqb_spec b c) as [->|]; [|done].
    intros Hrel. f_equal. by apply IH.
Qed.

Lemma strip_prefix_is_app (base rel : path) :
  strip_prefix base (base ++ rel) = Some rel.
Proof.
  induction base as [|b base IH]; simpl; [done|].
  by rewrite String.eqb_refl.
Qed.

Lemma parent_name (p : path) : p <> [] -> p = parent p ++ [name p].
Proof. intros Hp. by apply app_removelast_last. Qed.

Lemma name_app (a rel : path) : rel <> [] -> name (a ++ rel) = name rel.
Proof.
  intros Hrel. unfold name.
  destruct (exists_last Hrel) as (l & x & ->).
  by rewrite app_assoc, !last_last.
Qed.

End StringFacts.

(** ** Discovery and destinations *)

Section DiscoveryFacts.
Context `{Imaging}.

Lemma rglob_spec (s : gmap path entry) (d p : path) :
  p ∈ rglob s d <-> is_Some (s !! p) /\ is_under d p = true.
Proof.
  unfold rglob. rewrite list_elem_of_In, filter_In, <- list_elem_of_In.
  rewrite list_elem_of_fmap. split.
  - intros [[[q e] [-> Hq%elem_of_map_to_list]] Hu]. eauto.
  - intros [[e He] Hu]. split; [|done].
    exists (p, e). split; [done|]. by apply elem_of_map_to_list.
Qed.

(** Membership in the list built on line 79. *)
Lemma discover_spec (s : gmap path entry) (d p : path) :
  p ∈ discover s d <->
  is_Some (s !! p) /\ is_under d p = true /\
  PyStr.lower (suffix p) ∈ RAW_EXT.
Proof.
  unfold discover. rewrite list_elem_of_In, filter_In, <- list_elem_of_In.
  rewrite rglob_spec, bool_decide_eq_true. tauto.
Qed.

Lemma discover_NoDup (s : gmap path entry) (d : path) : NoDup (discover s d).
Proof.
  unfold discover, rglob. apply NoDup_ListNoDup.
  do 2 apply List.NoDup_filter.
  apply NoDup_ListNoDup, NoDup_fst_map_to_list.
Qed.

Lemma is_under_app (d p : path) :
  is_under d p = true ->
  exists rel, rel <> [] /\ p = d ++ rel /\ relative_to p d = Ok rel.
Proof.
  unfold is_under, relative_to.
  destruct (strip_prefix d p) as [[|c rel]|] eqn:Hrel; try done.
  intros _. exists (c :: rel). split_and!; try done.
  by apply strip_prefix_app.
Qed.

Lemma raw_suffix_nonempty (ext : string) :
  PyStr.lower ext ∈ RAW_EXT -> ext <> "".
Proof.
  intros Hin ->. unfold RAW_EXT in Hin.
  apply elem_of_union in Hin as [Hin|Hin];
    by apply elem_of_singleton in Hin.
Qed.

Lemma with_suffix_dot (rel : path) (fmt : string) :
  suffix rel <> "" ->
  with_suffix rel ("." +:+ PyStr.lower fmt) =
    if suffix_accepted fmt
    then Ok (parent rel ++
               [PyStr.slice_to
                  (String.length (name rel) - String.length (suffix rel))
                  (name rel) +:+ ("." +:+ PyStr.lower fmt)])
    else Raise ValueError.
Proof.
  intros Hext. unfold with_suffix, suffix_accepted.
  change ("." +:+ PyStr.lower fmt) with (String "." (PyStr.lower fmt)).
  cbn [PyStr.contains PyStr.startswith String.eqb Ascii.eqb Bool.eqb
       negb andb orb].
  rewrite contains_slash_lower.
  destruct (PyStr.contains "/" fmt); [done|].
  destruct (String.eqb_spec (PyStr.lower fmt) "") as [E|E].
  - apply lower_empty in E as ->. done.
  - destruct (String.eqb_spec fmt "") as [->|_]; [done|].
    destruct (String.eqb_spec (name rel) "") as [E0|_].
    { exfalso. apply Hext. unfold suffix. by rewrite E0. }
    by destruct (String.eqb_spec (suffix rel) "").
Qed.

End DiscoveryFacts.

(** ** Format policy *)

(** C8: [_build_save_kwargs] is a total function of its two arguments;
    for ["jpeg"] it returns exactly the mapping with [quality] set to the
    given quality and [optimize] set to [True], and for every other format
    string it returns the empty mapping. *)
Theorem build_save_kwargs_policy (quality : Z) :
  _build_save_kwargs "jpeg" quality
    = {[ "quality" := PyInt quality; "optimize" := PyBool true ]}
  /\ forall fmt : string,
       fmt <> "jpeg" -> _build_save_kwargs fmt quality = ∅.
Proof.
  split; [reflexivity|].
  intros fmt Hfmt. unfold _build_save_kwargs.
  by destruct (String.eqb_spec fmt "jpeg").
Qed.

(** ** Resizing *)

Section Rounding.

Lemma Qfloor_quot (a b : Z) :
  Qfloor (inject_Z a / inject_Z b)%Q = a / b.
Proof. symmetry. apply Zdiv_Qdiv. Qed.

Lemma Qceiling_quot (a b : Z) :
  Qceiling (inject_Z a / inject_Z b)%Q = - ((- a) / b).
Proof.
  unfold Qceiling. f_equal.
  rewrite <- Qfloor_quot. apply Qfloor_comp.
  rewrite inject_Z_opp. unfold Qdiv. ring.
Qed.

(** Both roundings of [a / b], clamped below by 1, are within one of the
    exact quotient. *)
Lemma floor_ceil_near (a b c : Z) :
  0 < a -> 0 < b ->
  c = a / b \/ c = - ((- a) / b) ->
  1 <= Z.max c 1 /\ Z.abs (Z.max c 1 * b - a) < b.
Proof.
  intros Ha Hb Hc.
  pose proof (Z.div_mod a b ltac:(lia)) as Hq.
  pose proof (Z.mod_pos_bound a b Hb) as Hr.
  pose proof (Z.div_mod (- a) b ltac:(lia)) as Hq'.
  pose proof (Z.mod_pos_bound (- a) b Hb) as Hr'.
  assert (0 <= a / b) by (apply Z.div_pos; lia).
  destruct Hc as [-> | ->]; nia.
Qed.

Lemma floor_ceil_le (a b c n : Z) :
  0 < b -> a <= n * b ->
  c = a / b \/ c = - ((- a) / b) ->
  c <= n.
Proof.
  intros Hb Ha Hc.
  pose proof (Z.div_mod a b ltac:(lia)) as Hq.
  pose proof (Z.mod_pos_bound a b Hb) as Hr.
  pose proof (Z.div_mod (- a) b ltac:(lia)) as Hq'.
  pose proof (Z.mod_pos_bound (- a) b Hb) as Hr'.
  destruct Hc as [-> | ->]; nia.
Qed.

(** Whatever the key, [round_aspect] returns the floor or the ceiling of
    its argument, or 1 when that is smaller. *)
Lemma round_aspect_quot (number : Q) (key : Z -> Q) (a b : Z) :
  (number == inject_Z a / inject_Z b)%Q ->
  exists c, (c = a / b \/ c = - ((- a) / b)) /\
            Pillow.round_aspect number key = Z.max c 1.
Proof.
  intros Hn. unfold Pillow.round_aspect.
  rewrite (Qfloor_comp _ _ Hn), (Qceiling_comp _ _ Hn).
  rewrite Qfloor_quot, Qceiling_quot.
  destruct (Qle_bool _ _); eauto.
Qed.

Lemma aspect_le_square (w h n : Z) :
  0 < h -> 0 < n ->
  Qle_bool (inject_Z w / inject_Z h)%Q (inject_Z n / inject_Z n)%Q = true
  <-> w <= h.
Proof.
  intros Hh Hn. rewrite Qle_bool_iff.
  destruct h as [|p|p]; try lia. destruct n as [|q|q]; try lia.
  rewrite <- !Qmake_Qdiv. unfold Qle. simpl. nia.
Qed.

End Rounding.

Section Resize.
Context `{Imaging}.

Lemma thumbnail_dims (img : raster pixels) (n : Z) :
  0 < width img -> 0 < height img -> 0 < n ->
  n < Z.max (width img) (height img) ->
  exists out, Pillow.thumbnail lanczos img (n, n) = Ok out /\
    Z.max (width out) (height out) = n /\
    1 <= Z.min (width out) (height out) /\
    Z.abs (width out * height img - height out * width img)
      < Z.max (width img) (height img).
Proof.
  destruct img as [w h px]; simpl. intros Hw Hh Hn Hbig.
  unfold Pillow.thumbnail, Pillow.preserve_aspect_ratio; simpl.
  assert ((w <=? n) && (h <=? n) = false) as ->
    by (destruct (Z.leb_spec w n), (Z.leb_spec h n); simpl; lia || reflexivity).
  assert ((h =? 0) || (n =? 0) = false) as ->
    by (destruct (Z.eqb_spec h 0), (Z.eqb_spec n 0); simpl; lia || reflexivity).
  destruct (Qle_bool _ _) eqn:Hcmp.
  - apply aspect_le_square in Hcmp; [|lia..].
    edestruct (round_aspect_quot (inject_Z n * (inject_Z w / inject_Z h))%Q)
      as (c & Hc & ->).
    { instantiate (1 := h). instantiate (1 := n * w).
      rewrite inject_Z_mult. unfold Qdiv. ring. }
    pose proof (floor_ceil_near (n * w) h c ltac:(nia) Hh Hc) as [Hone Hnear].
    pose proof (floor_ceil_le (n * w) h c n Hh ltac:(nia) Hc) as Hle.
    match goal with |- context [if ?b then _ else _] => destruct b eqn:Esame end;
      [apply andb_true_iff in Esame as [Ex Ey];
       apply Z.eqb_eq in Ex; apply Z.eqb_eq in Ey|];
      eexists; (split; [reflexivity|]); simpl; lia.
  - assert (h < w) as Hlt.
    { destruct (Z_le_gt_dec w h) as [Hle|]; [|lia].
      apply (aspect_le_square w h n Hh Hn) in Hle. congruence. }
    edestruct (round_aspect_quot (inject_Z n / (inject_Z w / inject_Z h))%Q)
      as (c & Hc & ->).
    { instantiate (1 := w). instantiate (1 := n * h).
      rewrite inject_Z_mult. field.
      split; intros E; unfold Qeq in E; simpl in E; lia. }
    pose proof (floor_ceil_near (n * h) w c ltac:(nia) Hw Hc) as [Hone Hnear].
    pose proof (floor_ceil_le (n * h) w c n Hw ltac:(nia) Hc) as Hle.
    match goal with |- context [if ?b then _ else _] => destruct b eqn:Esame end;
      [apply andb_true_iff in Esame as [Ex Ey];
       apply Z.eqb_eq in Ex; apply Z.eqb_eq in Ey|];
      eexists; (split; [reflexivity|]); simpl; lia.
Qed.

Lemma thumbnail_fits (img : raster pixels) (n : Z) :
  Z.max (width img) (height img) <= n ->
  Pillow.thumbnail lanczos img (n, n) = Ok img.
Proof.
  intros Hfit. unfold Pillow.thumbnail, Pillow.preserve_aspect_ratio.
  destruct (Z.leb_spec (width img) n), (Z.leb_spec (height img) n);
    simpl; lia || reflexivity.
Qed.

Lemma resize_step_positive (n : Z) (rgb : raster pixels) :
  0 < n -> resize_step (Some n) rgb = Pillow.thumbnail lanczos rgb (n, n).
Proof.
  intros Hn. unfold resize_step.
  destruct (Z.eqb_spec n 0), (Z.ltb_spec 0 n); simpl; lia || reflexivity.
Qed.

(** C4: with [resize = N > 0], a decoded raster whose longer edge exceeds
    [N] comes out with its longer edge equal to [N] and its shorter edge
    within one pixel of the proportional value; a raster whose longer edge
    is at most [N] comes out unchanged (never enlarged); with [resize] 0 or
    unset the raster comes out unchanged. *)
Theorem resize_invariant (resize : option Z) (rgb : raster pixels) :
  0 < width rgb -> 0 < height rgb ->
  exists img, resize_step resize rgb = Ok img /\
    (forall n, resize = Some n -> 0 < n ->
       n < Z.max (width rgb) (height rgb) ->
       Z.max (width img) (height img) = n /\
       1 <= Z.min (width img) (height img) /\
       Z.abs (width img * height rgb - height img * width rgb)
         < Z.max (width rgb) (height rgb)) /\
    (forall n, resize = Some n -> 0 < n ->
       Z.max (width rgb) (height rgb) <= n -> img = rgb) /\
    (resize = Some 0 \/ resize = None -> img = rgb).
Proof.
  intros Hw Hh. destruct resize as [n|].
  - destruct (Z.ltb_spec 0 n) as [Hn|Hn].
    + rewrite resize_step_positive by done.
      destruct (Z.ltb_spec n (Z.max (width rgb) (height rgb))) as [Hbig|Hfit].
      * destruct (thumbnail_dims rgb n Hw Hh Hn Hbig) as (out & -> & Hout).
        exists out. split_and!; try done.
        -- by intros ? [= <-] _ _.
        -- intros ? [= <-] _ ?. lia.
        -- intros [[= ->]|[=]]. lia.
      * rewrite thumbnail_fits by done.
        exists rgb. split_and!; try done.
        intros ? [= <-] _ ?. lia.
    + exists rgb. split.
      { unfold resize_step.
        destruct (Z.eqb_spec n 0), (Z.ltb_spec 0 n); simpl; lia || reflexivity. }
      split_and!; try done; intros ? [= <-] ?; lia.
  - exists rgb. split_and!; done.
Qed.

(** C10: a [resize] that is [None], zero or negative leaves the decoded
    raster as it is, and [process_raw] then behaves as with [resize]
    unset; no error is raised for a negative value. *)
Theorem no_resize_when_unset_or_nonpositive (resize : option Z) :
  resize = None \/ (exists n, resize = Some n /\ n <= 0) ->
  (forall rgb : raster pixels, resize_step resize rgb = Ok rgb) /\
  (forall input_path output_path quality fmt w,
     process_raw input_path output_path resize quality fmt w
     = process_raw input_path output_path None quality fmt w).
Proof.
  intros Hres.
  assert (forall rgb : raster pixels, resize_step resize rgb = Ok rgb) as Hstep.
  { intros rgb. destruct Hres as [->|(n & -> & Hn)]; [done|].
    unfold resize_step.
    destruct (Z.eqb_spec n 0), (Z.ltb_spec 0 n); simpl; lia || reflexivity. }
  split; [done|].
  intros. unfold process_raw, bind.
  destruct (imread_postprocess input_path w) as [[rgb|e] w1]; [|done].
  by rewrite Hstep.
Qed.

End Resize.

(** ** The file system only grows *)

Section FileSystemFacts.
Context `{Imaging}.

Lemma entry_at_cons (s : gmap path entry) (p : path) :
  p <> [] -> entry_at s p = s !! p.
Proof. by destruct p. Qed.

Lemma entry_at_None (s : gmap path entry) (p : path) :
  entry_at s p = None -> p <> [] /\ s !! p = None.
Proof. by destruct p. Qed.

Lemma entry_at_weaken (s s' : gmap path entry) (p : path) (e : entry) :
  s ⊆ s' -> entry_at s p = Some e -> entry_at s' p = Some e.
Proof.
  intros Hsub. destruct p as [|c p]; simpl; [done|].
  intros He. by eapply lookup_weaken.
Qed.

Lemma entry_at_mono (s s' : gmap path entry) (p : path) :
  s ⊆ s' -> is_Some (entry_at s p) -> is_Some (entry_at s' p).
Proof. intros Hsub [e He]. exists e. by eapply entry_at_weaken. Qed.

Lemma mkdir_from_grows (rest : path) :
  forall (s : gmap path entry) (base : path) s',
    mkdir_from s base rest = Ok s' -> s ⊆ s'.
Proof.
  induction rest as [|d rest IH]; intros s base s'; simpl.
  - by intros [= ->].
  - destruct (s !! (base ++ [d])) as [[c|]|] eqn:Hp; try done.
    + apply IH.
    + intros Hrec. apply IH in Hrec.
      etrans; [|exact Hrec]. by apply insert_subseteq.
Qed.

Lemma mkdir_from_keeps_files (rest : path) :
  forall (s : gmap path entry) (base : path) s' q c,
    mkdir_from s base rest = Ok s' ->
    s' !! q = Some (File c) -> s !! q = Some (File c).
Proof.
  induction rest as [|d rest IH]; intros s base s' q c; simpl.
  - by intros [= ->].
  - destruct (s !! (base ++ [d])) as [[c'|]|] eqn:Hp; try done.
    + apply IH.
    + intros Hrec Hq. specialize (IH _ _ _ _ _ Hrec Hq).
      rewrite lookup_insert in IH. by case_decide.
Qed.

Lemma bind_inv {A B} (m : prog A) (k : A -> prog B) w r w' :
  bind m k w = (r, w') ->
  (exists a w1, m w = (Ok a, w1) /\ k a w1 = (r, w')) \/
  (exists e, m w = (Raise e, w') /\ r = Raise e).
Proof.
  unfold bind. destruct (m w) as [[a|e] w1]; [eauto|].
  intros [= <- <-]. eauto.
Qed.

Lemma imread_postprocess_inv p w r w' :
  imread_postprocess p w = (r, w') -> w' = w.
Proof.
  unfold imread_postprocess.
  repeat case_match; by intros [= <- <-].
Qed.

Lemma mkdir_parents_inv p w r w' :
  mkdir_parents p w = (r, w') ->
  same_session w w' /\ files w ⊆ files w' /\
  (forall q c, files w' !! q = Some (File c) -> files w !! q = Some (File c)).
Proof.
  unfold mkdir_parents, same_session.
  destruct (mkdir_from (files w) [] p) as [s1|e] eqn:Hmk;
    intros [= <- <-]; simpl; [|done].
  split_and!; try done.
  - by eapply mkdir_from_grows.
  - intros q c. by eapply mkdir_from_keeps_files.
Qed.

Lemma save_inv img p format kwargs w r w' :
  save img p format kwargs w = (r, w') ->
  same_session w w' /\
  ((exists bytes, r = Ok tt /\ p <> [] /\ files w !! p <> Some Dir /\
                  files w' = <[p := File bytes]> (files w)) \/
   (exists e, r = Raise e /\ w' = w)).
Proof.
  unfold save, same_session.
  destruct (pil_encode format kwargs img) as [bytes|];
    [|intros [= <- <-]; eauto 10].
  destruct p as [|c p]; [intros [= <- <-]; eauto 10|].
  remember (c :: p) as o eqn:Eo.
  assert (entry_at (files w) o = files w !! o) as -> by by subst.
  destruct (files w !! o) as [[c'|]|] eqn:Ho;
    try (intros [= <- <-]; eauto 10);
    destruct (entry_at (files w) (parent o)) as [[c''|]|];
    intros [= <- <-]; simpl; split_and!; try done; eauto 10;
    left; exists bytes; split_and!; try done; by subst.
Qed.

(** One conversion touches nothing but the file system, keeps every
    entry when its destination was absent, and leaves the destination
    behind when it succeeds. *)
Lemma process_raw_effect i o resize q fmt w r w' :
  process_raw i o resize q fmt w = (r, w') ->
  same_session w w' /\
  (entry_at (files w) o = None -> files w ⊆ files w') /\
  (r = Ok tt -> is_Some (entry_at (files w') o)).
Proof.
  unfold process_raw. intros Hrun.
  apply bind_inv in Hrun as [(rgb & w1 & Hread & Hrun) | (e & Hread & ->)];
    apply imread_postprocess_inv in Hread as ->; [|done].
  apply bind_inv in Hrun as [(img & w2 & Hresize & Hrun) | (e & Hresize & ->)];
    unfold lift in Hresize; injection Hresize as _ <-; [|done].
  apply bind_inv in Hrun as [([] & w3 & Hmk & Hrun) | (e & Hmk & ->)];
    apply mkdir_parents_inv in Hmk as (Hs3 & Hsub & Hkeep);
    [|split_and!; done].
  apply save_inv in Hrun as [Hs' Hrun].
  destruct Hrun as [(bytes & -> & Hne & Hnd & Hfiles) | (e & -> & ->)];
    [|split_and!; done].
  destruct Hs3 as (? & ? & ?), Hs' as (? & ? & ?).
  unfold same_session. split_and!; try congruence.
  - intros [_ Hnone]%entry_at_None. rewrite Hfiles.
    etrans; [exact Hsub|]. apply insert_subseteq.
    destruct (files w3 !! o) as [[c|]|] eqn:Ho; try done.
    apply Hkeep in Ho. congruence.
  - intros _. rewrite Hfiles, entry_at_cons by done.
    rewrite lookup_insert_eq. eauto.
Qed.

(** A file rawpy cannot decode makes the conversion raise before anything
    is written. *)
Lemma process_raw_decode_failure i o resize q fmt w c :
  entry_at (files w) i = Some (File c) ->
  raw_decode c = None ->
  process_raw i o resize q fmt w = (Raise LibRawError, w).
Proof.
  intros Hi Hc. unfold process_raw, bind, imread_postprocess.
  by rewrite Hi, Hc.
Qed.

(** A successful conversion wrote the encoding of the decoded raster
    after the resize step. *)
Lemma process_raw_writes i o resize q fmt w w' :
  process_raw i o resize q fmt w = (Ok tt, w') ->
  exists c rgb img bytes,
    entry_at (files w) i = Some (File c) /\
    raw_decode c = Some rgb /\
    resize_step resize rgb = Ok img /\
    pil_encode (PyStr.upper fmt) (_build_save_kwargs (PyStr.lower fmt) q) img
      = Some bytes /\
    files w' !! o = Some (File bytes).
Proof.
  unfold process_raw, bind, imread_postprocess, lift.
  destruct (entry_at (files w) i) as [[c|]|] eqn:Hi; try done.
  destruct (raw_decode c) as [rgb|] eqn:Hc; try done.
  destruct (resize_step resize rgb) as [img|] eqn:Hr; try done.
  destruct (mkdir_parents (parent o) w) as [[[]|] w1]; try done.
  unfold save.
  destruct (pil_encode _ _ img) as [bytes|] eqn:He; try done.
  intros Hsave. exists c, rgb, img, bytes. split_and!; try done.
  destruct o as [|d o]; [done|].
  remember (d :: o) as p eqn:Ep.
  assert (entry_at (files w1) p = files w1 !! p) as Hat by by subst.
  rewrite Hat in Hsave.
  destruct (files w1 !! p) as [[c'|]|];
    destruct (entry_at (files w1) (parent p)) as [[c''|]|];
    try done; injection Hsave as <-; simpl; apply lookup_insert_eq.
Qed.

End FileSystemFacts.

(** ** The batch loop *)

Section LoopFacts.
Context `{Imaging}.
Variables (input_dir output_dir : path) (fmt : string).
Variables (resize : option Z) (quality : Z).

Local Abbreviation dest := (output_path_of input_dir output_dir fmt).
Local Abbreviation one := (convert_one input_dir output_dir fmt resize quality).
Local Abbreviation all := (convert_all input_dir output_dir fmt resize quality).
Local Abbreviation run := (_do_convert input_dir output_dir fmt resize quality).

Lemma convert_one_no_dest raw_file skips w e :
  dest raw_file = Raise e -> one raw_file skips w = (Raise e, w).
Proof. intros Hd. unfold convert_one, bind, lift. by rewrite Hd. Qed.

Lemma convert_one_skip raw_file skips w out :
  dest raw_file = Ok out ->
  is_Some (entry_at (files w) out) ->
  one raw_file skips w = (Ok (S skips), skipped raw_file out w).
Proof.
  intros Hd Hex. unfold convert_one, bind, lift, path_exists.
  rewrite Hd. by rewrite bool_decide_true.
Qed.

Lemma convert_one_convert raw_file skips w out :
  dest raw_file = Ok out ->
  entry_at (files w) out = None ->
  one raw_file skips w =
    match process_raw raw_file out resize quality fmt
            (announced raw_file out w) with
    | (Ok _, w2) => (Ok skips, advanced w2)
    | (Raise e, w2) => (Raise e, w2)
    end.
Proof.
  intros Hd Hex. unfold convert_one, bind, lift, path_exists.
  rewrite Hd. rewrite bool_decide_false by (rewrite Hex; by intros [? ?]).
  cbn [echo note_conversion files console pbar conversions].
  fold (announced raw_file out w).
  by destruct (process_raw _ _ _ _ _ _) as [[[]|e] w2].
Qed.

(** What one iteration leaves behind, however it ends. *)
Lemma convert_one_trace raw_file skips w r w' :
  one raw_file skips w = (r, w') ->
  files w ⊆ files w' /\
  (exists notices calls,
     console w' = console w ++ notices /\
     conversions w' = conversions w ++ calls /\
     Forall (mentions [raw_file]) notices /\
     Forall (fun c => c.1 = raw_file) calls) /\
  (forall skips', r = Ok skips' ->
     exists out, dest raw_file = Ok out /\ is_Some (entry_at (files w') out)).
Proof.
  destruct (dest raw_file) as [out|e] eqn:Hd.
  2: { rewrite (convert_one_no_dest _ _ _ _ Hd). intros [= <- <-].
       split_and!; [done| |done].
       exists [], []. by rewrite !app_nil_r. }
  destruct (entry_at (files w) out) as [en|] eqn:Hex.
  - rewrite (convert_one_skip _ _ _ _ Hd) by eauto. intros [= <- <-].
    split_and!; [done| |].
    + exists [Skipping raw_file out], []. simpl. rewrite app_nil_r.
      split_and!; try done. repeat constructor.
    + intros _ _. exists out. simpl. by rewrite Hex.
  - rewrite (convert_one_convert _ _ _ _ Hd Hex).
    destruct (process_raw _ _ _ _ _ _) as [[[]|e] w2] eqn:Hp;
      apply process_raw_effect in Hp as ((Hc & Hb & Hv) & Hsub & Hok);
      intros [= <- <-]; simpl in *; (split_and!; [by apply Hsub| |]).
    + exists [Converting raw_file out], [(raw_file, out)].
      split_and!; try done; repeat constructor.
    + intros _ _. exists out. split; [done|]. by apply Hok.
    + exists [Converting raw_file out], [(raw_file, out)].
      split_and!; try done; repeat constructor.
    + done.
Qed.

Lemma convert_all_app (pre : list path) :
  forall post skips w,
    all (pre ++ post) skips w =
      match all pre skips w with
      | (Ok skips', w1) => all post skips' w1
      | (Raise e, w1) => (Raise e, w1)
      end.
Proof.
  induction pre as [|f pre IH]; intros post skips w; simpl; [done|].
  unfold bind. destruct (one f skips w) as [[k|e] w1]; [|done].
  apply IH.
Qed.

Lemma head_sub (f : path) (l : list path) : [f] ⊆ f :: l.
Proof. intros g Hg. apply list_elem_of_singleton in Hg as ->. by left. Qed.

Lemma tail_sub (f : path) (l : list path) : l ⊆ f :: l.
Proof. intros g Hg. by right. Qed.

Lemma mentions_weaken (l l' : list path) (ev : event) :
  l ⊆ l' -> mentions l ev -> mentions l' ev.
Proof. intros Hsub. destruct ev; simpl; auto. Qed.

(** What the loop leaves behind, however it ends. *)
Lemma convert_all_trace (l : list path) :
  forall skips w r w',
    all l skips w = (r, w') ->
    files w ⊆ files w' /\
    exists notices calls,
      console w' = console w ++ notices /\
      conversions w' = conversions w ++ calls /\
      Forall (mentions l) notices /\
      Forall (fun c => c.1 ∈ l) calls.
Proof.
  induction l as [|f l IH]; intros skips w r w'; simpl.
  - intros [= <- <-]. split; [done|]. exists [], []. by rewrite !app_nil_r.
  - unfold bind. destruct (one f skips w) as [[k|e] w1] eqn:Hone;
      apply convert_one_trace in Hone
        as (Hsub1 & (n1 & c1 & Hn1 & Hc1 & Hm1 & Hf1) & _).
    + intros (Hsub2 & n2 & c2 & Hn2 & Hc2 & Hm2 & Hf2)%IH.
      split; [by etrans|]. exists (n1 ++ n2), (c1 ++ c2).
      rewrite Hn2, Hn1, Hc2, Hc1, <- !app_assoc. split_and!; try done.
      * apply Forall_app. split.
        -- eapply Forall_impl; [exact Hm1|]. intros ev.
           apply mentions_weaken, head_sub.
        -- eapply Forall_impl; [exact Hm2|]. intros ev.
           apply mentions_weaken, tail_sub.
      * apply Forall_app. split.
        -- eapply Forall_impl; [exact Hf1|]. intros c ->. by left.
        -- eapply Forall_impl; [exact Hf2|]. intros c ?. by right.
    + intros [= <- <-]. split; [done|]. exists n1, c1. split_and!; try done.
      * eapply Forall_impl; [exact Hm1|]. intros ev.
        apply mentions_weaken, head_sub.
      * eapply Forall_impl; [exact Hf1|]. intros c ->. by left.
Qed.

(** After a loop that ran to its end every destination exists. *)
Lemma convert_all_ok_present (l : list path) :
  forall skips w skips' w',
    all l skips w = (Ok skips', w') ->
    forall f, f ∈ l ->
      exists out, dest f = Ok out /\ is_Some (entry_at (files w') out).
Proof.
  induction l as [|f l IH]; intros skips w skips' w'; simpl.
  - intros _ g Hg. by apply elem_of_nil in Hg.
  - unfold bind. destruct (one f skips w) as [[k|e] w1] eqn:Hone; [|done].
    intros Hrest g [->|Hg]%elem_of_cons.
    + apply convert_one_trace in Hone as (_ & _ & Hpres).
      destruct (Hpres k eq_refl) as (out & Hd & Hex).
      exists out. split; [done|].
      apply convert_all_trace in Hrest as [Hsub _].
      by eapply entry_at_mono.
    + by eapply IH.
Qed.

(** A loop over files whose destinations all exist skips every one. *)
Lemma convert_all_rerun (l : list path) :
  forall skips w,
    (forall f, f ∈ l ->
       exists out, dest f = Ok out /\ is_Some (entry_at (files w) out)) ->
    all l skips w =
      (Ok (skips + length l)%nat,
       World (files w)
             (console w ++ map (skip_notice input_dir output_dir fmt) l)
             (pbar w + length l)%nat (conversions w)).
Proof.
  induction l as [|f l IH]; intros skips w Hall; simpl.
  - unfold ret. rewrite app_nil_r, !Nat.add_0_r. by destruct w.
  - destruct (Hall f ltac:(by left)) as (out & Hd & Hex).
    unfold bind. rewrite (convert_one_skip _ _ _ _ Hd Hex).
    rewrite IH by (intros g Hg; apply Hall; by right).
    unfold skip_notice at 2. rewrite Hd. simpl.
    rewrite <- app_assoc. simpl.
    replace (pbar w + 1 + length l)%nat with (pbar w + S (length l))%nat by lia.
    by replace (skips + S (length l))%nat with (S (skips + length l)) by lia.
Qed.

Lemma do_convert_run w :
  discover (files w) input_dir <> [] ->
  run w =
    match all (discover (files w) input_dir) 0%nat (opened w) with
    | (Ok skips, w1) =>
        (Ok tt, summarised (length (discover (files w) input_dir)) skips w1)
    | (Raise e, w1) => (Raise e, w1)
    end.
Proof.
  intros Hne. unfold _do_convert.
  destruct (discover (files w) input_dir) as [|f l] eqn:Hl; [done|].
  unfold bind. cbn [tqdm_open]. fold (opened w).
  by destruct (all (f :: l) 0%nat (opened w)) as [[k|e] w1].
Qed.

End LoopFacts.

(** ** The orchestrator *)

Section Orchestrator.
Context `{Imaging}.

(** X14: Whatever a run does and however it ends, every entry that was there
    before is there afterwards, unchanged. *)
Lemma do_convert_preserves input_dir output_dir fmt resize quality w r w' :
  _do_convert input_dir output_dir fmt resize quality w = (r, w') ->
  files w ⊆ files w'.
Proof.
  destruct (discover (files w) input_dir) as [|f l] eqn:Hl.
  - unfold _do_convert. rewrite Hl. by intros [= <- <-].
  - rewrite do_convert_run by (rewrite Hl; done).
    destruct (convert_all _ _ _ _ _ _ _ _) as [[k|e] w1] eqn:Hall;
      apply convert_all_trace in Hall as [Hsub _];
      by intros [= <- <-].
Qed.

(** C1: the destination computed for a discovered file is [output_dir]
    joined with the file's path relative to [input_dir], the suffix of
    the last component replaced by a dot and the lower-cased format,
    whatever the letter case of the suffix.  [with_suffix] computes it for
    every format that is non-empty and holds no separator, and raises
    [ValueError] for the others. *)
Theorem destination_mirrors_relative_path
    (s : gmap path entry) (input_dir output_dir : path) (fmt : string)
    (raw_file : path) :
  raw_file ∈ discover s input_dir ->
  exists (dirs : path) (stem ext : string),
    raw_file = input_dir ++ dirs ++ [stem +:+ ext] /\
    suffix raw_file = ext /\
    PyStr.lower ext ∈ RAW_EXT /\
    output_path_of input_dir output_dir fmt raw_file =
      if suffix_accepted fmt
      then Ok (output_dir ++ dirs ++ [stem +:+ ("." +:+ PyStr.lower fmt)])
      else Raise ValueError.
Proof.
  intros (_ & Hunder & Hext)%discover_spec.
  apply is_under_app in Hunder as (rel & Hrel & -> & Hrelto).
  unfold suffix in Hext. rewrite name_app in Hext by done.
  fold (suffix rel) in Hext.
  pose proof (raw_suffix_nonempty _ Hext) as Hne.
  exists (parent rel),
    (PyStr.slice_to (String.length (name rel) - String.length (suffix rel))
                    (name rel)),
    (suffix rel).
  split_and!.
  - unfold suffix. rewrite name_stem_suffix. f_equal. by apply parent_name.
  - unfold suffix. by rewrite name_app.
  - done.
  - unfold output_path_of. rewrite Hrelto, with_suffix_dot by done.
    by destruct (suffix_accepted fmt).
Qed.

(** C2: when the destination of a discovered file exists at check time,
    the iteration adds one to the skip count, prints the skip notice,
    advances the bar by one and goes on with the next file; the converter
    is not called, the file system is not touched, and whatever the rest
    of the loop does the entry at the destination stays as it was. *)
Theorem existing_destination_is_skipped
    (input_dir output_dir : path) (fmt : string) (resize : option Z)
    (quality : Z) (raw_file : path) (rest : list path) (skips : nat)
    (w : world) (output_path : path) (present : entry) :
  output_path_of input_dir output_dir fmt raw_file = Ok output_path ->
  entry_at (files w) output_path = Some present ->
  convert_one input_dir output_dir fmt resize quality raw_file skips w
    = (Ok (S skips),
       World (files w) (console w ++ [Skipping raw_file output_path])
             (pbar w + 1)%nat (conversions w)) /\
  convert_all input_dir output_dir fmt resize quality (raw_file :: rest) skips w
    = convert_all input_dir output_dir fmt resize quality rest (S skips)
        (skipped raw_file output_path w) /\
  forall r w',
    convert_all input_dir output_dir fmt resize quality (raw_file :: rest) skips w
      = (r, w') ->
    entry_at (files w') output_path = Some present.
Proof.
  intros Hd Hex.
  assert (convert_one input_dir output_dir fmt resize quality raw_file skips w
          = (Ok (S skips), skipped raw_file output_path w)) as Hone
    by (apply convert_one_skip; eauto).
  split_and!.
  - exact Hone.
  - simpl. unfold bind. by rewrite Hone.
  - intros r w' Hrun. apply convert_all_trace in Hrun as [Hsub _].
    by eapply entry_at_weaken.
Qed.

(** C5: when no RAW file is discovered the run prints the "no files
    found" notice and exits with status 1; the file system, the progress
    bar and the list of conversions are untouched. *)
Theorem no_raw_files_exit_1
    (input_dir output_dir : path) (fmt : string) (resize : option Z)
    (quality : Z) (w : world) :
  discover (files w) input_dir = [] ->
  _do_convert input_dir output_dir fmt resize quality w
    = (Raise (Exit 1),
       World (files w) (console w ++ [NoRawFiles]) (pbar w) (conversions w)).
Proof. intros Hnone. unfold _do_convert. by rewrite Hnone. Qed.

(** C3: after a run that ended with its summary, a second run with the
    same arguments over the same discovered files converts nothing and
    leaves the file system as it is; it skips every file, and its summary
    reports as skipped the number of files the first summary reported as
    processed. *)
Theorem second_run_skips_everything
    (input_dir output_dir : path) (fmt : string) (resize : option Z)
    (quality : Z) (w w1 : world) :
  _do_convert input_dir output_dir fmt resize quality w = (Ok tt, w1) ->
  (forall p, p ∈ discover (files w1) input_dir
             <-> p ∈ discover (files w) input_dir) ->
  exists (total skips1 : nat) (notices1 : list event) (w2 : world),
    console w1 = notices1 ++ [Done total skips1] /\
    _do_convert input_dir output_dir fmt resize quality w1 = (Ok tt, w2) /\
    files w2 = files w1 /\
    conversions w2 = conversions w1 /\
    console w2 =
      console w1
      ++ map (skip_notice input_dir output_dir fmt)
             (discover (files w1) input_dir)
      ++ [Done total total].
Proof.
  intros Hrun Hsame.
  destruct (discover (files w) input_dir) as [|f l] eqn:Hl.
  { unfold _do_convert in Hrun. by rewrite Hl in Hrun. }
  rewrite do_convert_run in Hrun by (rewrite Hl; done). rewrite Hl in Hrun.
  destruct (convert_all _ _ _ _ _ _ _ _) as [[k|e] w0] eqn:Hall; [|done].
  injection Hrun as <-. cbn [files console conversions pbar summarised] in *.
  pose proof (convert_all_trace _ _ _ _ _ _ _ _ _ _ Hall) as [Hsub _].
  pose proof (convert_all_ok_present _ _ _ _ _ _ _ _ _ _ Hall) as Hpres.
  assert (discover (files w0) input_dir ≡ₚ f :: l) as Hperm.
  { apply NoDup_Permutation.
    - apply discover_NoDup.
    - rewrite <- Hl. apply discover_NoDup.
    - exact Hsame. }
  assert (discover (files w0) input_dir <> []) as Hne.
  { intros E. rewrite E in Hperm. by apply Permutation_nil_cons in Hperm. }
  exists (length (f :: l)), k, (console w0),
    (summarised (length (f :: l)) (length (f :: l))
       (World (files w0)
          (console w0 ++ [Done (length (f :: l)) k]
           ++ map (skip_notice input_dir output_dir fmt)
                  (discover (files w0) input_dir))
          (length (discover (files w0) input_dir)) (conversions w0))).
  split_and!; try done.
  - rewrite do_convert_run by done. cbn [files summarised].
    rewrite convert_all_rerun.
    + cbn [files console pbar conversions opened summarised].
      rewrite (Permutation_length Hperm), <- app_assoc. done.
    + intros g Hg. cbn [files opened summarised].
      apply Hpres, Hsame, Hg.
  - cbn [console summarised]. by rewrite <- !app_assoc.
Qed.

(** C6: when the conversion of one discovered file raises, the exception
    leaves [_do_convert] as it is: the run ends in the world the failed
    conversion left, no summary is printed, and no notice and no
    conversion concerns a file that comes after the failing one. *)
Theorem failure_aborts_the_batch
    (input_dir output_dir : path) (fmt : string) (resize : option Z)
    (quality : Z) (w : world) (pre : list path) (raw_file : path)
    (post : list path) (skips : nat) (w1 : world) (output_path : path)
    (e : exn) (w2 : world) :
  discover (files w) input_dir = pre ++ raw_file :: post ->
  convert_all input_dir output_dir fmt resize quality pre 0%nat (opened w)
    = (Ok skips, w1) ->
  output_path_of input_dir output_dir fmt raw_file = Ok output_path ->
  entry_at (files w1) output_path = None ->
  process_raw raw_file output_path resize quality fmt
    (announced raw_file output_path w1) = (Raise e, w2) ->
  _do_convert input_dir output_dir fmt resize quality w = (Raise e, w2) /\
  exists (notices : list event) (calls : list (path * path)),
    console w2 = console w ++ notices /\
    conversions w2 = conversions w ++ calls /\
    (forall total skipped_count, Done total skipped_count ∉ notices) /\
    (forall later, later ∈ post ->
       forall out, (Skipping later out ∉ notices) /\
                   (Converting later out ∉ notices) /\
                   ((later, out) ∉ calls)).
Proof.
  intros Hl Hpre Hd Hex Hfail.
  assert (convert_all input_dir output_dir fmt resize quality
            (pre ++ [raw_file]) 0%nat (opened w) = (Raise e, w2)) as Hupto.
  { rewrite convert_all_app, Hpre. simpl. unfold bind.
    by rewrite (convert_one_convert _ _ _ _ _ _ _ _ _ Hd Hex), Hfail. }
  split.
  - rewrite do_convert_run by (rewrite Hl; by destruct pre).
    rewrite Hl. replace (pre ++ raw_file :: post)
      with ((pre ++ [raw_file]) ++ post) by by rewrite <- app_assoc.
    by rewrite convert_all_app, Hupto.
  - apply convert_all_trace in Hupto
      as (_ & notices & calls & Hn & Hc & Hm & Hf).
    exists notices, calls. split_and!; try done.
    + intros total k Hin.
      rewrite Forall_forall in Hm. by apply Hm in Hin.
    + intros later Hlater out.
      assert (later ∉ pre ++ [raw_file]) as Hfresh.
      { pose proof (discover_NoDup (files w) input_dir) as Hnd.
        rewrite Hl in Hnd.
        replace (pre ++ raw_file :: post)
          with ((pre ++ [raw_file]) ++ post) in Hnd by by rewrite <- app_assoc.
        apply NoDup_app in Hnd as (_ & Hdisj & _).
        intros Hin. by apply (Hdisj later). }
      rewrite Forall_forall in Hm. rewrite Forall_forall in Hf.
      split_and!; intros Hin.
      * by apply Hm in Hin.
      * by apply Hm in Hin.
      * by apply Hf in Hin.
Qed.

(** The two command handlers are the same function of their arguments. *)
Lemma convert_is_main (input_dir output_dir : path) (o : options) (w : world) :
  convert input_dir output_dir o w = main input_dir output_dir o w.
Proof. reflexivity. Qed.

End Orchestrator.

(** ** The script on concrete trees *)

Section Examples.
Import Demo.
#[local] Existing Instance demo_imaging.

(** Discovery does not look at the letter case of the suffix and leaves
    other suffixes out. *)
Example discovery_ignores_case :
  discover shoot ["in"]
  = [["in"; "b"; "c.DNG"]; ["in"; "a.cr2"]; ["in"; "z.Cr2"]].
Proof. vm_compute. reflexivity. Qed.

(** The scenario of the specification: 4000x3000 becomes 384x288 and
    3000x4000 becomes 288x384; a 300x200 raster is written as it is. *)
Example first_run_scenario :
  let '(r, w) := main ["in"] ["out"] defaults (start shoot) in
  r = Ok tt /\
  files w !! ["out"; "a.jpeg"] = Some (File [384; 288; 2]) /\
  files w !! ["out"; "b"; "c.jpeg"] = Some (File [288; 384; 2]) /\
  files w !! ["out"; "z.jpeg"] = Some (File [300; 200; 2]) /\
  List.last (console w) NoRawFiles = Done 3 0.
Proof. vm_compute. repeat split; reflexivity. Qed.

(** C7: [rglob] also yields directories, and line 79 filters on the
    suffix alone: a directory called [album.cr2] is put on the list of
    RAW files, and the run breaks when rawpy is asked to read it. *)
Theorem directory_with_raw_suffix_is_discovered :
  shoot_with_album !! ["in"; "album.cr2"] = Some Dir /\
  discover shoot_with_album ["in"]
  = [["in"; "b"; "c.DNG"]; ["in"; "album.cr2"]; ["in"; "a.cr2"];
     ["in"; "z.Cr2"]] /\
  (main ["in"] ["out"] defaults (start shoot_with_album)).1
  = Raise LibRawError.
Proof. vm_compute. repeat split; reflexivity. Qed.

(** C9: reached through the [convert] sub-command the pipeline runs
    twice, first in the callback and then in the sub-command: the console
    shows a second pass that skips every file and a second summary, where
    the default command prints one pass and one summary. *)
Theorem convert_alias_runs_the_pipeline_twice :
  console (app (Invocation ["in"] ["out"] defaults None) (start shoot)).2
  = [Converting ["in"; "b"; "c.DNG"] ["out"; "b"; "c.jpeg"];
     Converting ["in"; "a.cr2"] ["out"; "a.jpeg"];
     Converting ["in"; "z.Cr2"] ["out"; "z.jpeg"];
     Done 3 0] /\
  console (app (Invocation ["in"] ["out"] defaults
                  (Some ("convert", (["in"], ["out"], defaults))))
               (start shoot)).2
  = [Converting ["in"; "b"; "c.DNG"] ["out"; "b"; "c.jpeg"];
     Converting ["in"; "a.cr2"] ["out"; "a.jpeg"];
     Converting ["in"; "z.Cr2"] ["out"; "z.jpeg"];
     Done 3 0;
     Skipping ["in"; "b"; "c.DNG"] ["out"; "b"; "c.jpeg"];
     Skipping ["in"; "a.cr2"] ["out"; "a.jpeg"];
     Skipping ["in"; "z.Cr2"] ["out"; "z.jpeg"];
     Done 3 3].
Proof. vm_compute. split; reflexivity. Qed.

(** *** The theorems at concrete inputs *)

Lemma destination_mirrors_relative_path_witness :
  exists (dirs : path) (stem ext : string),
    ["in"; "b"; "c.DNG"] = ["in"] ++ dirs ++ [stem +:+ ext] /\
    suffix ["in"; "b"; "c.DNG"] = ext /\
    PyStr.lower ext ∈ RAW_EXT /\
    output_path_of ["in"] ["out"] "JPEG" ["in"; "b"; "c.DNG"] =
      if suffix_accepted "JPEG"
      then Ok (["out"] ++ dirs ++ [stem +:+ ("." +:+ PyStr.lower "JPEG")])
      else Raise ValueError.
Proof.
  apply (destination_mirrors_relative_path shoot).
  vm_compute. left.
Defined.

Lemma existing_destination_is_skipped_witness :
  let w := (main ["in"] ["out"] defaults (start shoot)).2 in
  convert_all ["in"] ["out"] "jpeg" (Some 384) 92
    [["in"; "a.cr2"]; ["in"; "z.Cr2"]] 1%nat w
  = convert_all ["in"] ["out"] "jpeg" (Some 384) 92 [["in"; "z.Cr2"]] 2%nat
      (skipped ["in"; "a.cr2"] ["out"; "a.jpeg"] w).
Proof.
  intros w.
  apply (@existing_destination_is_skipped demo_imaging ["in"] ["out"] "jpeg" (Some 384) 92
           ["in"; "a.cr2"] [["in"; "z.Cr2"]] 1%nat w ["out"; "a.jpeg"]
           landscape_jpeg).
  - vm_compute. reflexivity.
  - vm_compute. reflexivity.
Defined.

Lemma second_run_skips_everything_witness :
  let w1 := (_do_convert ["in"] ["out"] "jpeg" (Some 384) 92 (start shoot)).2 in
  exists (total skips1 : nat) (notices1 : list event) (w2 : world),
    console w1 = notices1 ++ [Done total skips1] /\
    _do_convert ["in"] ["out"] "jpeg" (Some 384) 92 w1 = (Ok tt, w2) /\
    files w2 = files w1 /\
    conversions w2 = conversions w1 /\
    console w2 =
      console w1
      ++ map (skip_notice ["in"] ["out"] "jpeg") (discover (files w1) ["in"])
      ++ [Done total total].
Proof.
  intros w1.
  apply (second_run_skips_everything ["in"] ["out"] "jpeg" (Some 384) 92
           (start shoot) w1).
  - vm_compute. reflexivity.
  - assert (discover (files w1) ["in"] = discover (files (start shoot)) ["in"])
      as -> by (vm_compute; reflexivity).
    reflexivity.
Defined.

Lemma resize_invariant_witness :
  exists img, resize_step (Some 384) landscape = Ok img /\
    (forall n, Some 384 = Some n -> 0 < n -> n < Z.max 4000 3000 ->
       Z.max (width img) (height img) = n /\
       1 <= Z.min (width img) (height img) /\
       Z.abs (width img * 3000 - height img * 4000) < Z.max 4000 3000) /\
    (forall n, Some 384 = Some n -> 0 < n -> Z.max 4000 3000 <= n ->
       img = landscape) /\
    (Some 384 = Some 0 \/ Some 384 = None -> img = landscape).
Proof.
  apply (resize_invariant (Some 384) landscape); simpl; lia.
Defined.

Lemma no_raw_files_exit_1_witness :
  _do_convert ["in"] ["out"] "jpeg" (Some 384) 92 (start no_raw)
  = (Raise (Exit 1), World no_raw [NoRawFiles] 0%nat []).
Proof.
  apply (no_raw_files_exit_1 ["in"] ["out"] "jpeg" (Some 384) 92 (start no_raw)).
  vm_compute. reflexivity.
Defined.

Lemma failure_aborts_the_batch_witness :
  let w := start shoot_corrupt in
  let w1 := (convert_all ["in"] ["out"] "jpeg" (Some 384) 92
               [["in"; "b"; "c.DNG"]] 0%nat (opened w)).2 in
  let w2 := announced ["in"; "a.cr2"] ["out"; "a.jpeg"] w1 in
  _do_convert ["in"] ["out"] "jpeg" (Some 384) 92 w = (Raise LibRawError, w2) /\
  exists (notices : list event) (calls : list (path * path)),
    console w2 = console w ++ notices /\
    conversions w2 = conversions w ++ calls /\
    (forall total skipped_count, Done total skipped_count ∉ notices) /\
    (forall later, later ∈ [["in"; "z.Cr2"]] ->
       forall out, (Skipping later out ∉ notices) /\
                   (Converting later out ∉ notices) /\
                   ((later, out) ∉ calls)).
Proof.
  intros w w1 w2.
  apply (failure_aborts_the_batch ["in"] ["out"] "jpeg" (Some 384) 92 w
           [["in"; "b"; "c.DNG"]] ["in"; "a.cr2"] [["in"; "z.Cr2"]]
           0%nat w1 ["out"; "a.jpeg"] LibRawError w2).
  - vm_compute. reflexivity.
  - vm_compute. reflexivity.
  - vm_compute. reflexivity.
  - vm_compute. reflexivity.
  - vm_compute. reflexivity.
Defined.

Lemma build_save_kwargs_policy_witness :
  "png" <> "jpeg" /\ _build_save_kwargs "png" 92 = ∅.
Proof.
  split; [discriminate|].
  apply (proj2 (build_save_kwargs_policy 92)). discriminate.
Defined.

Lemma no_resize_when_unset_or_nonpositive_witness :
  (forall rgb : raster pixels, resize_step (Some (-5)) rgb = Ok rgb) /\
  (forall input_path output_path quality fmt w,
     process_raw input_path output_path (Some (-5)) quality fmt w
     = process_raw input_path output_path None quality fmt w).
Proof.
  apply (no_resize_when_unset_or_nonpositive (Some (-5))).
  right. exists (-5). split; [reflexivity|lia].
Defined.

End Examples.

(** * Further properties of the script *)

(** ** Names, suffixes and letter case *)

Section NameFacts.

Lemma lower_char_dot (c : ascii) :
  Ascii.eqb (PyStr.lower_char c) "." = Ascii.eqb c ".".
Proof. destruct c as [[] [] [] [] [] [] [] []]; reflexivity. Qed.

Lemma lower_char_idem (c : ascii) :
  PyStr.lower_char (PyStr.lower_char c) = PyStr.lower_char c.
Proof. destruct c as [[] [] [] [] [] [] [] []]; reflexivity. Qed.

Lemma upper_lower_char (c : ascii) :
  PyStr.upper_char (PyStr.lower_char c) = PyStr.upper_char c.
Proof. destruct c as [[] [] [] [] [] [] [] []]; reflexivity. Qed.

Lemma lower_idem (s : string) : PyStr.lower (PyStr.lower s) = PyStr.lower s.
Proof.
  induction s as [|c s IH]; simpl; [done|]. by rewrite lower_char_idem, IH.
Qed.

Lemma upper_lower (s : string) : PyStr.upper (PyStr.lower s) = PyStr.upper s.
Proof.
  induction s as [|c s IH]; simpl; [done|]. by rewrite upper_lower_char, IH.
Qed.

Lemma contains_dot_lower (s : string) :
  PyStr.contains "." (PyStr.lower s) = PyStr.contains "." s.
Proof.
  induction s as [|c s IH]; simpl; [done|]. by rewrite lower_char_dot, IH.
Qed.

Lemma rfind_absent (c : ascii) (s : string) :
  PyStr.contains c s = false -> PyStr.rfind c s = None.
Proof.
  induction s as [|a s IH]; simpl; [done|].
  intros [Ha Hs]%orb_false_iff. by rewrite (IH Hs), Ha.
Qed.

Lemma rfind_last_dot (stem tail : string) :
  PyStr.contains "." tail = false ->
  PyStr.rfind "." (stem +:+ String "." tail) = Some (String.length stem).
Proof.
  intros Htail. induction stem as [|a stem IH].
  - change ("" +:+ String "." tail) with (String "." tail). simpl.
    by rewrite (rfind_absent _ _ Htail).
  - rewrite append_cons. simpl. by rewrite IH.
Qed.

Lemma length_append (a b : string) :
  String.length (a +:+ b) = (String.length a + String.length b)%nat.
Proof.
  induction a as [|c a IH]; [done|].
  rewrite append_cons. simpl. by rewrite IH.
Qed.

Lemma substring_append_r (a b : string) :
  substring (String.length a) (String.length b) (a +:+ b) = b.
Proof.
  induction a as [|c a IH].
  - change ("" +:+ b) with b. apply substring_full.
  - rewrite append_cons. simpl. exact IH.
Qed.

Lemma substring_append_l (a b : string) :
  substring 0 (String.length a) (a +:+ b) = a.
Proof.
  induction a as [|c a IH].
  - apply substring_zero.
  - rewrite append_cons. simpl. by rewrite IH.
Qed.

(** The suffix pathlib sees in [stem.tail] when [tail] holds no dot. *)
Lemma suffix_of_stem_dot (stem tail : string) :
  stem <> "" -> tail <> "" -> PyStr.contains "." tail = false ->
  suffix_of (stem +:+ String "." tail) = String "." tail.
Proof.
  intros Hstem Htail Hdot. unfold suffix_of, PyStr.slice_from.
  rewrite (rfind_last_dot _ _ Hdot), length_append.
  assert (0 < String.length stem)%nat by (destruct stem; simpl; [done|lia]).
  assert (0 < String.length tail)%nat by (destruct tail; simpl; [done|lia]).
  simpl String.length.
  destruct (Nat.ltb_spec 0 (String.length stem)); [|lia].
  destruct (Nat.ltb_spec (String.length stem)
              (String.length stem + S (String.length tail) - 1)); [|lia].
  simpl.
  replace (String.length stem + S (String.length tail) - String.length stem)%nat
    with (String.length (String "." tail)) by (simpl; lia).
  apply substring_append_r.
Qed.

(** A suffix that lower-cases to [.cr2] or [.dng] is a dot followed by
    three characters that are not dots. *)
Lemma raw_ext_shape (ext : string) :
  PyStr.lower ext ∈ RAW_EXT ->
  exists tail, ext = String "." tail /\ tail <> "" /\
               PyStr.contains "." tail = false.
Proof.
  intros Hin.
  assert (PyStr.lower ext = ".cr2" \/ PyStr.lower ext = ".dng") as Hcase.
  { unfold RAW_EXT in Hin. apply elem_of_union in Hin as [Hin|Hin];
      apply elem_of_singleton in Hin; auto. }
  destruct ext as [|c tail]; [by destruct Hcase|].
  assert (c = "."%char) as ->.
  { apply Ascii.eqb_eq. rewrite <- lower_char_dot.
    destruct Hcase as [E|E]; simpl in E; injection E as -> _; done. }
  exists tail. split; [done|].
  assert (PyStr.lower tail = "cr2" \/ PyStr.lower tail = "dng") as Htail.
  { destruct Hcase as [E|E]; simpl in E; injection E as E; auto. }
  split.
  - intros ->. by destruct Htail.
  - rewrite <- contains_dot_lower. by destruct Htail as [-> | ->].
Qed.

End NameFacts.

(** ** Destinations *)

Section DestinationFacts.
Context `{Imaging}.

Lemma name_snoc (dirs : path) (nm : string) : name (dirs ++ [nm]) = nm.
Proof. unfold name. apply last_last. Qed.

Lemma parent_snoc (dirs : path) (nm : string) : parent (dirs ++ [nm]) = dirs.
Proof. unfold parent. apply removelast_last. Qed.

(** The destination of a file called [stem] followed by a RAW suffix. *)
Lemma output_path_of_raw_name
    (input_dir output_dir dirs : path) (stem ext fmt : string) :
  stem <> "" ->
  PyStr.lower ext ∈ RAW_EXT ->
  output_path_of input_dir output_dir fmt (input_dir ++ dirs ++ [stem +:+ ext])
  = if suffix_accepted fmt
    then Ok (output_dir ++ dirs ++ [stem +:+ ("." +:+ PyStr.lower fmt)])
    else Raise ValueError.
Proof.
  intros Hstem (tail & -> & Htail & Hdot)%raw_ext_shape.
  unfold output_path_of, relative_to. rewrite strip_prefix_is_app.
  assert (suffix (dirs ++ [stem +:+ String "." tail]) = String "." tail) as Hsuf.
  { unfold suffix. rewrite name_snoc. by apply suffix_of_stem_dot. }
  rewrite with_suffix_dot by (by rewrite Hsuf).
  destruct (suffix_accepted fmt); [|done].
  rewrite Hsuf, name_snoc, parent_snoc, length_append. unfold joinpath.
  replace (String.length stem + String.length (String "." tail)
           - String.length (String "." tail))%nat
    with (String.length stem) by lia.
  unfold PyStr.slice_to. by rewrite substring_append_l.
Qed.

(** X2: Line 89 drops the suffix: two RAW files of one directory that differ
    only in their suffix ([a.cr2] and [a.DNG], say) are given the same
    destination, whatever the format. *)
Theorem same_stem_same_destination
    (input_dir output_dir dirs : path) (stem ext1 ext2 fmt : string) :
  stem <> "" ->
  PyStr.lower ext1 ∈ RAW_EXT ->
  PyStr.lower ext2 ∈ RAW_EXT ->
  output_path_of input_dir output_dir fmt (input_dir ++ dirs ++ [stem +:+ ext1])
  = output_path_of input_dir output_dir fmt (input_dir ++ dirs ++ [stem +:+ ext2]).
Proof.
  intros Hstem H1 H2. by rewrite !output_path_of_raw_name.
Qed.

Lemma output_path_of_lower (input_dir output_dir : path) (fmt1 fmt2 : string)
    (raw_file : path) :
  PyStr.lower fmt1 = PyStr.lower fmt2 ->
  output_path_of input_dir output_dir fmt1 raw_file
  = output_path_of input_dir output_dir fmt2 raw_file.
Proof. intros E. unfold output_path_of. by rewrite E. Qed.

Lemma process_raw_lower (i o : path) (resize : option Z) (q : Z)
    (fmt1 fmt2 : string) (w : world) :
  PyStr.lower fmt1 = PyStr.lower fmt2 ->
  process_raw i o resize q fmt1 w = process_raw i o resize q fmt2 w.
Proof.
  intros E. unfold process_raw.
  by rewrite <- (upper_lower fmt1), <- (upper_lower fmt2), E.
Qed.

Lemma convert_one_lower (input_dir output_dir : path) (fmt1 fmt2 : string)
    (resize : option Z) (quality : Z) (raw_file : path) (skips : nat)
    (w : world) :
  PyStr.lower fmt1 = PyStr.lower fmt2 ->
  convert_one input_dir output_dir fmt1 resize quality raw_file skips w
  = convert_one input_dir output_dir fmt2 resize quality raw_file skips w.
Proof.
  intros E. unfold convert_one, bind, lift.
  rewrite (output_path_of_lower _ _ _ _ _ E).
  destruct (output_path_of _ _ fmt2 raw_file) as [out|e]; [|done].
  destruct (path_exists out w) as [[[]|e] w1]; try done.
  destruct (echo _ w1) as [[[]|e] w2]; try done.
  destruct (note_conversion _ _ w2) as [[[]|e] w3]; try done.
  by rewrite (process_raw_lower _ _ _ _ _ _ _ E).
Qed.

Lemma convert_all_lower (input_dir output_dir : path) (fmt1 fmt2 : string)
    (resize : option Z) (quality : Z) (l : list path) :
  PyStr.lower fmt1 = PyStr.lower fmt2 ->
  forall skips w,
    convert_all input_dir output_dir fmt1 resize quality l skips w
    = convert_all input_dir output_dir fmt2 resize quality l skips w.
Proof.
  intros E. induction l as [|f l IH]; intros skips w; simpl; [done|].
  unfold bind. rewrite (convert_one_lower _ _ _ _ _ _ _ _ _ E).
  destruct (convert_one _ _ fmt2 _ _ _ _ _) as [[k|e] w1]; [|done].
  apply IH.
Qed.

(** X3: The format is used through [fmt.lower()] and [fmt.upper()] alone, so
    a run does not see its letter case: [-f JPEG], [-f Jpeg] and [-f jpeg]
    do exactly the same. *)
Theorem format_letter_case_is_ignored
    (input_dir output_dir : path) (fmt1 fmt2 : string) (resize : option Z)
    (quality : Z) (w : world) :
  PyStr.lower fmt1 = PyStr.lower fmt2 ->
  _do_convert input_dir output_dir fmt1 resize quality w
  = _do_convert input_dir output_dir fmt2 resize quality w.
Proof.
  intros E. unfold _do_convert.
  destruct (discover (files w) input_dir) as [|f l]; [done|].
  unfold bind. destruct (tqdm_open w) as [[[]|e] w1]; [|done].
  by rewrite (convert_all_lower _ _ _ _ _ _ _ E).
Qed.

End DestinationFacts.

(** ** The resize step *)

Section ResizeBounds.
Context `{Imaging}.

Lemma thumbnail_shrinks (img : raster pixels) (n : Z) :
  0 < width img -> 0 < height img -> 0 < n ->
  exists out, Pillow.thumbnail lanczos img (n, n) = Ok out /\
    1 <= width out <= width img /\ 1 <= height out <= height img /\
    (width img <= height img -> width out <= height out) /\
    (height img <= width img -> height out <= width out).
Proof.
  intros Hw Hh Hn.
  destruct (Z_le_gt_dec (Z.max (width img) (height img)) n) as [Hfit|Hbig].
  { rewrite thumbnail_fits by done. exists img. split; [done|lia]. }
  destruct img as [w h px]; simpl in *.
  unfold Pillow.thumbnail, Pillow.preserve_aspect_ratio; simpl.
  assert ((w <=? n) && (h <=? n) = false) as ->
    by (destruct (Z.leb_spec w n), (Z.leb_spec h n); simpl; lia || reflexivity).
  assert ((h =? 0) || (n =? 0) = false) as ->
    by (destruct (Z.eqb_spec h 0), (Z.eqb_spec n 0); simpl; lia || reflexivity).
  destruct (Qle_bool _ _) eqn:Hcmp.
  - apply aspect_le_square in Hcmp; [|lia..].
    edestruct (round_aspect_quot (inject_Z n * (inject_Z w / inject_Z h))%Q)
      as (c & Hc & ->).
    { instantiate (1 := h). instantiate (1 := n * w).
      rewrite inject_Z_mult. unfold Qdiv. ring. }
    pose proof (floor_ceil_le (n * w) h c w Hh ltac:(nia) Hc) as Hcw.
    pose proof (floor_ceil_le (n * w) h c n Hh ltac:(nia) Hc) as Hcn.
    assert (w = h -> c = n) as Hsq.
    { intros ->. destruct Hc as [-> | ->].
      - by apply Z.div_mul; lia.
      - rewrite <- Z.mul_opp_l, Z.div_mul by lia. lia. }
    match goal with |- context [if ?b then _ else _] => destruct b eqn:Esame end;
      [apply andb_true_iff in Esame as [Ex Ey];
       apply Z.eqb_eq in Ex; apply Z.eqb_eq in Ey|];
      eexists; (split; [reflexivity|]); simpl; lia.
  - assert (h < w) as Hlt.
    { destruct (Z_le_gt_dec w h) as [Hle|]; [|lia].
      apply (aspect_le_square w h n Hh Hn) in Hle. congruence. }
    edestruct (round_aspect_quot (inject_Z n / (inject_Z w / inject_Z h))%Q)
      as (c & Hc & ->).
    { instantiate (1 := w). instantiate (1 := n * h).
      rewrite inject_Z_mult. field.
      split; intros E; unfold Qeq in E; simpl in E; lia. }
    pose proof (floor_ceil_le (n * h) w c h Hw ltac:(nia) Hc) as Hch.
    pose proof (floor_ceil_le (n * h) w c n Hw ltac:(nia) Hc) as Hcn.
    match goal with |- context [if ?b then _ else _] => destruct b eqn:Esame end;
      [apply andb_true_iff in Esame as [Ex Ey];
       apply Z.eqb_eq in Ex; apply Z.eqb_eq in Ey|];
      eexists; (split; [reflexivity|]); simpl; lia.
Qed.

(** X4: Lines 40-41 only ever shrink: whatever [resize] is, the step succeeds
    on a raster of positive size, neither edge of its result is longer
    than the decoded edge, and the shorter side stays the shorter side. *)
Theorem resize_never_enlarges (resize : option Z) (rgb : raster pixels) :
  0 < width rgb -> 0 < height rgb ->
  exists img, resize_step resize rgb = Ok img /\
    1 <= width img <= width rgb /\
    1 <= height img <= height rgb /\
    (width rgb <= height rgb -> width img <= height img) /\
    (height rgb <= width rgb -> height img <= width img).
Proof.
  intros Hw Hh.
  destruct resize as [n|]; [|exists rgb; split; [done|lia]].
  destruct (Z.ltb_spec 0 n) as [Hn|Hn].
  - rewrite resize_step_positive by done.
    destruct (thumbnail_shrinks rgb n Hw Hh Hn) as (img & Himg & Hle).
    by exists img.
  - exists rgb. split; [|lia]. unfold resize_step.
    destruct (Z.eqb_spec n 0), (Z.ltb_spec 0 n); simpl; lia || reflexivity.
Qed.

End ResizeBounds.

(** ** One conversion *)

Section ConversionFacts.
Context `{Imaging}.

Lemma mkdir_from_creates (rest : path) :
  forall (s : gmap path entry) (base : path) s',
    mkdir_from s base rest = Ok s' ->
    forall q r, rest = q ++ r -> q <> [] -> s' !! (base ++ q) = Some Dir.
Proof.
  induction rest as [|d rest IH]; intros s base s' Hmk q r Hq Hne.
  - by destruct q.
  - destruct q as [|d' q]; [done|]. injection Hq as <- Hrest.
    simpl in Hmk.
    assert (exists s1, mkdir_from s1 (base ++ [d]) rest = Ok s' /\
                       s1 !! (base ++ [d]) = Some Dir) as (s1 & Hrec & Hd).
    { destruct (s !! (base ++ [d])) as [[c|]|] eqn:Hp; try done.
      - by exists s.
      - exists (<[base ++ [d] := Dir]> s). by rewrite lookup_insert_eq. }
    destruct q as [|d'' q].
    + eapply lookup_weaken; [exact Hd|]. by eapply mkdir_from_grows.
    + replace (base ++ d :: d'' :: q) with ((base ++ [d]) ++ d'' :: q)
        by (by rewrite <- app_assoc).
      by apply (IH _ _ _ Hrec (d'' :: q) r Hrest).
Qed.

Lemma mkdir_from_deep (rest : path) :
  forall (s : gmap path entry) (base : path) s' p,
    mkdir_from s base rest = Ok s' ->
    (length base + length rest < length p)%nat ->
    s' !! p = s !! p.
Proof.
  induction rest as [|d rest IH]; intros s base s' p; simpl.
  - by intros [= ->].
  - destruct (s !! (base ++ [d])) as [[c|]|] eqn:Hp; try done.
    + intros Hrec Hlen. eapply IH; [exact Hrec|].
      rewrite length_app. simpl. lia.
    + intros Hrec Hlen. erewrite IH; [|exact Hrec|rewrite length_app; simpl; lia].
      apply lookup_insert_ne. intros <-. rewrite length_app in Hlen.
      simpl in Hlen. lia.
Qed.

Lemma parent_length (p : path) : p <> [] -> (length (parent p) < length p)%nat.
Proof.
  intros Hp. destruct (exists_last Hp) as (l & x & ->).
  unfold parent. rewrite removelast_last, length_app. simpl. lia.
Qed.

Lemma thumbnail_exn {P} (resample : raster P -> Z * Z -> P) img size e :
  Pillow.thumbnail resample img size = Raise e -> e = ZeroDivisionError.
Proof.
  unfold Pillow.thumbnail, Pillow.preserve_aspect_ratio.
  destruct size as [x y].
  repeat case_match; congruence.
Qed.

Lemma mkdir_from_exn (rest : path) :
  forall (s : gmap path entry) (base : path) e,
    mkdir_from s base rest = Raise e ->
    e = FileExistsError \/ e = NotADirectoryError.
Proof.
  induction rest as [|d rest IH]; intros s base e; simpl; [done|].
  destruct (s !! (base ++ [d])) as [[c|]|]; eauto.
  destruct rest; intros [= <-]; auto.
Qed.

Lemma mkdir_parents_creates p w w1 :
  mkdir_parents p w = (Ok tt, w1) ->
  forall q r, p = q ++ r -> q <> [] -> files w1 !! q = Some Dir.
Proof.
  unfold mkdir_parents.
  destruct (mkdir_from (files w) [] p) as [s1|e] eqn:Hmk; [|done].
  intros [= <-] q r Hq Hne. simpl.
  by apply (mkdir_from_creates _ _ _ _ Hmk q r).
Qed.

Lemma mkdir_parents_deep p w r w1 o :
  mkdir_parents p w = (r, w1) ->
  (length p < length o)%nat ->
  files w1 !! o = files w !! o.
Proof.
  unfold mkdir_parents.
  destruct (mkdir_from (files w) [] p) as [s1|e] eqn:Hmk;
    intros [= <- <-] Hlen; simpl; [|done].
  by eapply mkdir_from_deep.
Qed.

(** X5: What a successful [process_raw] leaves behind: the destination holds
    the encoding, under the upper-cased format and the options of the
    lower-cased one, of the decoded raster after the resize step; every
    directory on the way to it exists; every other entry is as before. *)
Theorem conversion_postcondition i o resize q fmt w w' :
  process_raw i o resize q fmt w = (Ok tt, w') ->
  same_session w w' /\
  (exists c rgb img bytes,
     entry_at (files w) i = Some (File c) /\
     raw_decode c = Some rgb /\
     resize_step resize rgb = Ok img /\
     pil_encode (PyStr.upper fmt) (_build_save_kwargs (PyStr.lower fmt) q) img
       = Some bytes /\
     files w' !! o = Some (File bytes)) /\
  (forall d r, o = d ++ r -> d <> [] -> r <> [] -> files w' !! d = Some Dir) /\
  (forall p e, p <> o -> files w !! p = Some e -> files w' !! p = Some e).
Proof.
  intros Hrun.
  pose proof (process_raw_writes _ _ _ _ _ _ _ Hrun) as Hwrites.
  pose proof (process_raw_effect _ _ _ _ _ _ _ _ Hrun) as (Hsess & _ & _).
  split_and!; try done.
  all: unfold process_raw in Hrun.
  all: apply bind_inv in Hrun as [(rgb & w1 & Hread & Hrun) | (e & _ & [=])];
    apply imread_postprocess_inv in Hread as ->.
  all: apply bind_inv in Hrun as [(img & w2 & Hres & Hrun) | (e & _ & [=])];
    unfold lift in Hres; injection Hres as _ <-.
  all: apply bind_inv in Hrun as [([] & w3 & Hmk & Hrun) | (e & _ & [=])].
  all: apply save_inv in Hrun as [_ Hrun].
  all: destruct Hrun as [(bytes & _ & Hne & _ & Hfiles) | (e & [=] & _)].
  - intros d r Ho Hd Hr. rewrite Hfiles.
    rewrite lookup_insert_ne.
    + apply (mkdir_parents_creates _ _ _ Hmk d (removelast r)); [|done].
      unfold parent. rewrite Ho. by apply removelast_app.
    + intros E. rewrite Ho in E.
      apply (f_equal length) in E. rewrite length_app in E.
      destruct r; [done|]. simpl in E. lia.
  - intros p e Hp He. rewrite Hfiles, lookup_insert_ne by done.
    apply mkdir_parents_inv in Hmk as (_ & Hsub & _).
    by eapply lookup_weaken.
Qed.

Lemma process_raw_failure i o resize q fmt w e w' :
  process_raw i o resize q fmt w = (Raise e, w') ->
  same_session w w' /\
  files w ⊆ files w' /\
  (forall p c, files w' !! p = Some (File c) -> files w !! p = Some (File c)) /\
  entry_at (files w') o = entry_at (files w) o /\
  conversion_error e.
Proof.
  unfold process_raw, conversion_error. intros Hrun.
  apply bind_inv in Hrun as [(rgb & w1 & Hread & Hrun) | (e1 & Hread & [= ->])].
  2: { pose proof (imread_postprocess_inv _ _ _ _ Hread) as ->.
       split_and!; try done.
       unfold imread_postprocess in Hread.
       repeat case_match; simplify_eq; auto. }
  apply imread_postprocess_inv in Hread as ->.
  apply bind_inv in Hrun as [(img & w2 & Hres & Hrun) | (e1 & Hres & [= ->])];
    unfold lift in Hres; injection Hres as Hres <-.
  2: { split_and!; try done. unfold resize_step in Hres.
       repeat case_match; try done.
       apply thumbnail_exn in Hres as ->. auto. }
  apply bind_inv in Hrun as [([] & w3 & Hmk & Hrun) | (e1 & Hmk & [= ->])].
  2: { pose proof (mkdir_parents_inv _ _ _ _ Hmk) as (Hsess & Hsub & Hkeep).
       unfold mkdir_parents in Hmk.
       destruct (mkdir_from (files w) [] (parent o)) as [s1|e2] eqn:Hfrom;
         simplify_eq.
       split_and!; try done.
       apply mkdir_from_exn in Hfrom as [-> | ->]; auto 10. }
  pose proof (mkdir_parents_inv _ _ _ _ Hmk) as (Hsess & Hsub & Hkeep).
  assert (entry_at (files w3) o = entry_at (files w) o) as Hsame.
  { destruct o as [|d o]; [done|]. simpl.
    eapply mkdir_parents_deep; [exact Hmk|]. by apply parent_length. }
  pose proof (save_inv _ _ _ _ _ _ _ Hrun) as [Hsess' Hcase].
  destruct Hcase as [(bytes & [=] & _) | (e1 & [= <-] & ->)].
  split_and!; try done.
  unfold save in Hrun. repeat case_match; simplify_eq; auto 10.
Qed.


(** X7: Line 36 comes first: a source that is missing, a directory or not
    decodable makes [process_raw] raise before any directory is created;
    the world is exactly as before. *)
Theorem unreadable_source_changes_nothing i o resize q fmt w :
  (forall c, entry_at (files w) i = Some (File c) -> raw_decode c = None) ->
  process_raw i o resize q fmt w = (Raise LibRawError, w).
Proof.
  intros Hbad. unfold process_raw, bind, imread_postprocess.
  destruct (entry_at (files w) i) as [[c|]|]; try done.
  by rewrite (Hbad c eq_refl).
Qed.

(** X8: The format is not checked before line 44: for a format no encoder is
    registered under, [process_raw] never succeeds and never writes a
    file, yet it creates the destination's directories first. *)
Theorem unknown_format_never_writes i o resize q fmt w r w' :
  (forall kwargs img, pil_encode (PyStr.upper fmt) kwargs img = None) ->
  process_raw i o resize q fmt w = (r, w') ->
  (exists e, r = Raise e) /\
  (forall p c, files w' !! p = Some (File c) -> files w !! p = Some (File c)) /\
  (r = Raise KeyError ->
   forall d rest, parent o = d ++ rest -> d <> [] -> files w' !! d = Some Dir).
Proof.
  intros Hnone Hrun.
  assert (exists e, r = Raise e) as [e ->].
  { destruct r as [[]|e]; [|eauto].
    apply process_raw_writes in Hrun as (c & rgb & img & bytes & _ & _ & _ & He & _).
    by rewrite Hnone in He. }
  split; [eauto|]. split.
  - unfold process_raw in Hrun.
    apply bind_inv in Hrun as [(rgb & w1 & Hread & Hrun) | (e1 & Hread & _)];
      apply imread_postprocess_inv in Hread as ->; [|done].
    apply bind_inv in Hrun as [(img & w2 & Hres & Hrun) | (e1 & Hres & _)];
      unfold lift in Hres; injection Hres as _ <-; [|done].
    apply bind_inv in Hrun as [([] & w3 & Hmk & Hrun) | (e1 & Hmk & _)];
      apply mkdir_parents_inv in Hmk as (_ & _ & Hkeep); [|done].
    apply save_inv in Hrun as [_ Hrun].
    destruct Hrun as [(bytes & [=] & _) | (e1 & _ & ->)]. done.
  - intros [= ->]. unfold process_raw in Hrun.
    apply bind_inv in Hrun as [(rgb & w1 & Hread & Hrun) | (e1 & Hread & [= <-])].
    2: { unfold imread_postprocess in Hread. repeat case_match; done. }
    apply imread_postprocess_inv in Hread as ->.
    apply bind_inv in Hrun as [(img & w2 & Hres & Hrun) | (e1 & Hres & [= <-])];
      unfold lift in Hres; injection Hres as Hres <-.
    2: { unfold resize_step in Hres. repeat case_match; try done.
         by apply thumbnail_exn in Hres. }
    apply bind_inv in Hrun as [([] & w3 & Hmk & Hrun) | (e1 & Hmk & [= <-])].
    2: { unfold mkdir_parents in Hmk.
         destruct (mkdir_from (files w) [] (parent o)) as [s1|e2] eqn:Hfrom;
           simplify_eq.
         by apply mkdir_from_exn in Hfrom as [|]. }
    apply save_inv in Hrun as [_ Hrun].
    destruct Hrun as [(bytes & [=] & _) | (e1 & _ & ->)].
    intros d rest Hd Hne. by apply (mkdir_parents_creates _ _ _ Hmk d rest).
Qed.

End ConversionFacts.

(** ** The whole run *)

Section RunFacts.
Context `{Imaging}.
Variables (input_dir output_dir : path) (fmt : string).
Variables (resize : option Z) (quality : Z).

Local Abbreviation dest := (output_path_of input_dir output_dir fmt).
Local Abbreviation one := (convert_one input_dir output_dir fmt resize quality).
Local Abbreviation all := (convert_all input_dir output_dir fmt resize quality).
Local Abbreviation run := (_do_convert input_dir output_dir fmt resize quality).

(** The two ways one iteration can end normally. *)
Lemma convert_one_ok raw_file skips w skips' w' :
  one raw_file skips w = (Ok skips', w') ->
  exists out, dest raw_file = Ok out /\
    pbar w' = (pbar w + 1)%nat /\
    files w ⊆ files w' /\
    is_Some (entry_at (files w') out) /\
    ((skips' = S skips /\ is_Some (entry_at (files w) out) /\
      console w' = console w ++ [Skipping raw_file out] /\
      conversions w' = conversions w) \/
     (skips' = skips /\ entry_at (files w) out = None /\
      console w' = console w ++ [Converting raw_file out] /\
      conversions w' = conversions w ++ [(raw_file, out)])).
Proof.
  destruct (dest raw_file) as [out|e] eqn:Hd.
  2: { by rewrite (convert_one_no_dest _ _ _ _ _ _ _ _ _ Hd). }
  destruct (entry_at (files w) out) as [en|] eqn:Hex.
  - rewrite (convert_one_skip _ _ _ _ _ _ _ _ _ Hd) by (rewrite Hex; eauto).
    intros [= <- <-]. exists out. simpl. rewrite Hex. split_and!; eauto.
  - rewrite (convert_one_convert _ _ _ _ _ _ _ _ _ Hd Hex).
    destruct (process_raw _ _ _ _ _ _) as [[[]|e] w2] eqn:Hp; [|done].
    apply process_raw_effect in Hp as ((Hc & Hb & Hv) & Hsub & Hok).
    intros [= <- <-]. exists out. simpl in *.
    split_and!; try done; [lia|by apply Hsub|by apply Hok|].
    right. by split_and!.
Qed.

(** The two ways one iteration can raise. *)
Lemma convert_one_raise raw_file skips w e w' :
  one raw_file skips w = (Raise e, w') ->
  (dest raw_file = Raise e /\ w' = w) \/
  (exists out, dest raw_file = Ok out /\ entry_at (files w) out = None /\
     process_raw raw_file out resize quality fmt (announced raw_file out w)
     = (Raise e, w')).
Proof.
  destruct (dest raw_file) as [out|e'] eqn:Hd.
  2: { rewrite (convert_one_no_dest _ _ _ _ _ _ _ _ _ Hd).
       intros [= <- <-]. by left. }
  destruct (entry_at (files w) out) as [en|] eqn:Hex.
  - by rewrite (convert_one_skip _ _ _ _ _ _ _ _ _ Hd) by (rewrite Hex; eauto).
  - rewrite (convert_one_convert _ _ _ _ _ _ _ _ _ Hd Hex).
    destruct (process_raw _ _ _ _ _ _) as [[[]|e'] w2] eqn:Hp; [done|].
    intros [= <- <-]. right. by exists out.
Qed.

Lemma output_path_of_exn raw_file e : dest raw_file = Raise e -> e = ValueError.
Proof.
  unfold output_path_of, relative_to, with_suffix.
  repeat case_match; congruence.
Qed.

Lemma convert_all_exn (l : list path) :
  forall skips w e w',
    all l skips w = (Raise e, w') -> e = ValueError \/ conversion_error e.
Proof.
  induction l as [|f l IH]; intros skips w e w'; simpl; [done|].
  unfold bind. destruct (one f skips w) as [[k|e1] w1] eqn:Hone.
  - apply IH.
  - intros [= <- <-].
    apply convert_one_raise in Hone as [[Hd _]|(out & _ & _ & Hp)].
    + left. by eapply output_path_of_exn.
    + right. by apply process_raw_failure in Hp as (_ & _ & _ & _ & ?).
Qed.

Lemma convert_all_accounting (l : list path) :
  forall skips w skips' w',
    all l skips w = (Ok skips', w') ->
    pbar w' = (pbar w + length l)%nat /\
    exists notices calls,
      console w' = console w ++ notices /\
      conversions w' = conversions w ++ calls /\
      Forall2 (notice_for input_dir output_dir fmt) l notices /\
      skips' = (skips + length (List.filter is_skip notices))%nat /\
      (skips' + length calls = skips + length l)%nat.
Proof.
  induction l as [|f l IH]; intros skips w skips' w'; simpl.
  - intros [= <- <-]. split; [lia|]. exists [], [].
    rewrite !app_nil_r. split_and!; try done; simpl; lia.
  - unfold bind. destruct (one f skips w) as [[k|e] w1] eqn:Hone; [|done].
    intros (Hbar & notices & calls & Hn & Hc & Hall & Hk & Hsum)%IH.
    apply convert_one_ok in Hone
      as (out & Hd & Hbar1 & _ & _ & Hcase).
    split; [lia|].
    destruct Hcase as [(-> & _ & Hn1 & Hc1) | (-> & _ & Hn1 & Hc1)].
    + exists (Skipping f out :: notices), calls.
      rewrite Hn, Hn1, Hc, Hc1, <- app_assoc.
      split_and!; try done; simpl; try lia.
      constructor; [|done]. exists out. auto.
    + exists (Converting f out :: notices), ((f, out) :: calls).
      rewrite Hn, Hn1, Hc, Hc1, <- !app_assoc.
      split_and!; try done; simpl; try lia.
      constructor; [|done]. exists out. auto.
Qed.

Lemma entry_at_absent_mono (s s' : gmap path entry) (p : path) :
  s ⊆ s' -> entry_at s' p = None -> entry_at s p = None.
Proof.
  intros Hsub Hnone. destruct (entry_at s p) as [e|] eqn:He; [|done].
  apply (entry_at_weaken _ _ _ _ Hsub) in He. congruence.
Qed.

Lemma convert_all_no_repeat (l : list path) :
  forall skips w r w',
    all l skips w = (r, w') ->
    exists calls,
      conversions w' = conversions w ++ calls /\
      NoDup calls.*2 /\
      Forall (fun c => c.1 ∈ l /\ entry_at (files w) c.2 = None) calls.
Proof.
  induction l as [|f l IH]; intros skips w r w'; simpl.
  - intros [= <- <-]. exists []. rewrite app_nil_r.
    split_and!; [done|constructor|constructor].
  - unfold bind. destruct (one f skips w) as [[k|e] w1] eqn:Hone.
    + intros (calls & Hc & Hnd & Habs)%IH.
      apply convert_one_ok in Hone as (out & Hd & _ & Hsub & Hnow & Hcase).
      assert (Forall (fun c => c.1 ∈ f :: l /\ entry_at (files w) c.2 = None)
                calls) as Habs'.
      { eapply Forall_impl; [exact Habs|]. intros c [Hin Hnone]. split.
        - by right.
        - by eapply entry_at_absent_mono. }
      destruct Hcase as [(_ & _ & _ & Hc1) | (_ & Hnone & _ & Hc1)].
      * exists calls. by rewrite Hc, Hc1.
      * exists ((f, out) :: calls). rewrite Hc, Hc1, <- app_assoc.
        split_and!; [done| |].
        -- simpl. constructor; [|done].
           intros ((src & dst) & Hdst & Hin)%list_elem_of_fmap.
           simpl in Hdst. subst dst.
           rewrite Forall_forall in Habs. apply Habs in Hin as [_ Hin].
           simpl in Hin. rewrite Hin in Hnow. by destruct Hnow.
        -- constructor; [|done]. split; [by left|done].
    + intros [= <- <-].
      apply convert_one_raise in Hone as [[_ ->]|(out & _ & Hnone & Hp)].
      * exists []. rewrite app_nil_r.
        split_and!; [done|constructor|constructor].
      * apply process_raw_effect in Hp as ((_ & _ & Hv) & _ & _).
        exists [(f, out)]. split_and!; [done| |].
        -- simpl. apply NoDup_singleton.
        -- constructor; [|constructor]. split; [by left|done].
Qed.

(** X9: Lines 84-112 keep their books: a run that ends normally printed one
    notice per discovered file, in the order of the list and for the
    destination computed for it, and then a single summary; the bar stands
    at the number of files; the summary's skip count is the number of skip
    notices, and skips and conversions add up to the total. *)
Theorem run_accounting (w w' : world) :
  run w = (Ok tt, w') ->
  exists notices skips calls,
    console w'
      = console w ++ notices
        ++ [Done (length (discover (files w) input_dir)) skips] /\
    Forall2 (notice_for input_dir output_dir fmt)
            (discover (files w) input_dir) notices /\
    skips = length (List.filter is_skip notices) /\
    conversions w' = conversions w ++ calls /\
    (skips + length calls)%nat = length (discover (files w) input_dir) /\
    pbar w' = length (discover (files w) input_dir).
Proof.
  intros Hrun.
  destruct (discover (files w) input_dir) as [|f l] eqn:Hl.
  { unfold _do_convert in Hrun. by rewrite Hl in Hrun. }
  rewrite do_convert_run in Hrun by (rewrite Hl; done). rewrite Hl in Hrun.
  destruct (all (f :: l) 0%nat (opened w)) as [[k|e] w1] eqn:Hall; [|done].
  injection Hrun as <-.
  apply convert_all_accounting in Hall
    as (Hbar & notices & calls & Hn & Hc & Hf & Hk & Hsum).
  exists notices, k, calls. cbn [console conversions pbar summarised opened] in *.
  rewrite Hn, <- app_assoc. split_and!; try done; lia.
Qed.

(** X10: No destination is written twice: the conversions of a run, however
    it ends, go to pairwise different destinations, each of a discovered
    file and each absent when the run began.  Of two files that share a
    destination only the first is converted. *)
Theorem no_destination_converted_twice (w : world) (r : result unit)
    (w' : world) :
  run w = (r, w') ->
  exists calls,
    conversions w' = conversions w ++ calls /\
    NoDup calls.*2 /\
    forall src dst, (src, dst) ∈ calls ->
      src ∈ discover (files w) input_dir /\ entry_at (files w) dst = None.
Proof.
  intros Hrun.
  destruct (discover (files w) input_dir) as [|f l] eqn:Hl.
  { unfold _do_convert in Hrun. rewrite Hl in Hrun. injection Hrun as <- <-.
    exists []. simpl. rewrite app_nil_r. split_and!; [done|constructor|].
    intros src dst Hin. by apply elem_of_nil in Hin. }
  rewrite do_convert_run in Hrun by (rewrite Hl; done). rewrite Hl in Hrun.
  destruct (all (f :: l) 0%nat (opened w)) as [[k|e] w1] eqn:Hall;
    apply convert_all_no_repeat in Hall as (calls & Hc & Hnd & Habs);
    injection Hrun as <- <-; exists calls;
    (split_and!; [done|done|]);
    intros src dst Hin; rewrite Forall_forall in Habs;
    by apply Habs in Hin.
Qed.

(** X11: After a run that ended normally every discovered file has something
    at its destination. *)
Theorem successful_run_leaves_every_destination (w w' : world) :
  run w = (Ok tt, w') ->
  forall raw_file, raw_file ∈ discover (files w) input_dir ->
    exists out present,
      dest raw_file = Ok out /\ entry_at (files w') out = Some present.
Proof.
  intros Hrun f Hf.
  destruct (discover (files w) input_dir) as [|f0 l] eqn:Hl.
  { by apply elem_of_nil in Hf. }
  rewrite do_convert_run in Hrun by (rewrite Hl; done). rewrite Hl in Hrun.
  destruct (all (f0 :: l) 0%nat (opened w)) as [[k|e] w1] eqn:Hall; [|done].
  injection Hrun as <-.
  destruct (convert_all_ok_present _ _ _ _ _ _ _ _ _ _ Hall f Hf)
    as (out & Hd & [present Hp]).
  by exists out, present.
Qed.

(** X12: A format [with_suffix] refuses (empty, or holding a separator) stops
    the run at the first discovered file with [ValueError]: the bar was
    opened, nothing was printed, read or written. *)
Theorem refused_format_stops_before_any_work (w : world) :
  discover (files w) input_dir <> [] ->
  suffix_accepted fmt = false ->
  run w = (Raise ValueError, opened w).
Proof.
  intros Hne Hfmt. rewrite do_convert_run by done.
  destruct (discover (files w) input_dir) as [|f l] eqn:Hl; [done|].
  assert (f ∈ discover (files w) input_dir) as Hf by (rewrite Hl; by left).
  apply discover_spec in Hf as (_ & Hunder & Hext).
  apply is_under_app in Hunder as (rel & Hrel & -> & Hrelto).
  unfold suffix in Hext. rewrite name_app in Hext by done.
  fold (suffix rel) in Hext.
  assert (dest (input_dir ++ rel) = Raise ValueError) as Hd.
  { unfold output_path_of. rewrite Hrelto.
    rewrite with_suffix_dot by (by apply raw_suffix_nonempty).
    by rewrite Hfmt. }
  simpl. unfold bind.
  by rewrite (convert_one_no_dest _ _ _ _ _ _ _ _ _ Hd).
Qed.

(** X13: Exit status 1 is not ambiguous: [typer.Exit] leaves a run only with
    code 1 and only when no RAW file was discovered, and then the file
    system is untouched. *)
Theorem exit_status_means_no_raw_files (w : world) (code : Z) (w' : world) :
  run w = (Raise (Exit code), w') ->
  code = 1 /\ discover (files w) input_dir = [] /\ files w' = files w.
Proof.
  intros Hrun.
  destruct (discover (files w) input_dir) as [|f l] eqn:Hl.
  { unfold _do_convert in Hrun. rewrite Hl in Hrun.
    injection Hrun as <- <-. done. }
  rewrite do_convert_run in Hrun by (rewrite Hl; done). rewrite Hl in Hrun.
  destruct (all (f :: l) 0%nat (opened w)) as [[k|e] w1] eqn:Hall; [done|].
  injection Hrun as -> <-.
  apply convert_all_exn in Hall as [Hv|Hc]; [done|].
  unfold conversion_error in Hc.
  destruct Hc as [?|[?|[?|[?|[?|[?|?]]]]]]; done.
Qed.

End RunFacts.

(** ** Discovery *)

Section DiscoveryShape.
Context `{Imaging}.

Lemma is_under_iff (d p : path) :
  is_under d p = true <-> exists rel, rel <> [] /\ p = d ++ rel.
Proof.
  split.
  - intros (rel & Hne & Hp & _)%is_under_app. eauto.
  - intros (rel & Hne & ->). unfold is_under.
    rewrite strip_prefix_is_app. by destruct rel.
Qed.

(** X1: Line 79 lists, once each, the entries of the tree (files and
    directories alike) that lie strictly below [input_dir] and whose last
    suffix is [.cr2] or [.dng] up to letter case. *)
Theorem discovery_lists_each_match_once (s : gmap path entry)
    (input_dir : path) :
  NoDup (discover s input_dir) /\
  forall p, p ∈ discover s input_dir <->
    (exists present, s !! p = Some present) /\
    (exists rel, rel <> [] /\ p = input_dir ++ rel) /\
    PyStr.lower (suffix p) ∈ RAW_EXT.
Proof.
  split; [apply discover_NoDup|].
  intros p. rewrite discover_spec, is_under_iff. done.
Qed.

End DiscoveryShape.

(** ** The further properties at concrete inputs *)

Section MoreExamples.
Import Demo.
#[local] Existing Instance demo_imaging.

Lemma same_stem_same_destination_witness :
  output_path_of ["in"] ["out"] "jpeg" (["in"] ++ ["b"] ++ ["a" +:+ ".cr2"])
  = output_path_of ["in"] ["out"] "jpeg" (["in"] ++ ["b"] ++ ["a" +:+ ".DNG"]).
Proof.
  apply (same_stem_same_destination ["in"] ["out"] ["b"] "a" ".cr2" ".DNG").
  - discriminate.
  - apply (bool_decide_unpack _). vm_compute. exact I.
  - apply (bool_decide_unpack _). vm_compute. exact I.
Defined.

Lemma format_letter_case_is_ignored_witness :
  _do_convert ["in"] ["out"] "JPEG" (Some 384) 92 (start shoot)
  = _do_convert ["in"] ["out"] "jpeg" (Some 384) 92 (start shoot).
Proof.
  apply (format_letter_case_is_ignored ["in"] ["out"] "JPEG" "jpeg").
  vm_compute. reflexivity.
Defined.

Lemma resize_never_enlarges_witness :
  exists img, resize_step (Some 384) landscape = Ok img /\
    1 <= width img <= width landscape /\
    1 <= height img <= height landscape /\
    (width landscape <= height landscape -> width img <= height img) /\
    (height landscape <= width landscape -> height img <= width img).
Proof.
  apply (resize_never_enlarges (Some 384) landscape); simpl; lia.
Defined.

Lemma conversion_postcondition_witness :
  let w := start shoot in
  let w' := (process_raw ["in"; "b"; "c.DNG"] ["out"; "b"; "c.jpeg"]
               (Some 384) 92 "jpeg" w).2 in
  same_session w w' /\
  files w' !! ["out"; "b"; "c.jpeg"] = Some (File [288; 384; 2]) /\
  files w' !! ["out"; "b"] = Some Dir /\
  files w' !! ["in"; "a.cr2"] = Some (File [4000; 3000]).
Proof.
  intros w w'.
  destruct (conversion_postcondition ["in"; "b"; "c.DNG"]
              ["out"; "b"; "c.jpeg"] (Some 384) 92 "jpeg" w w')
    as (Hsess & (c & rgb & img & bytes & _ & _ & _ & _ & Hout) & Hdirs & Hkeep).
  { vm_compute. reflexivity. }
  split_and!.
  - exact Hsess.
  - vm_compute. reflexivity.
  - apply (Hdirs ["out"; "b"] ["c.jpeg"]); done.
  - apply Hkeep; [done|]. vm_compute. reflexivity.
Defined.


Lemma unreadable_source_changes_nothing_witness :
  process_raw ["in"; "a.cr2"] ["out"; "a.jpeg"] (Some 384) 92 "jpeg"
    (start shoot_corrupt)
  = (Raise LibRawError, start shoot_corrupt).
Proof.
  apply (unreadable_source_changes_nothing ["in"; "a.cr2"] ["out"; "a.jpeg"]
           (Some 384) 92 "jpeg" (start shoot_corrupt)).
  intros c Hc. vm_compute in Hc. injection Hc as <-. reflexivity.
Defined.

Lemma unknown_format_never_writes_witness :
  let w := start shoot in
  let rw := process_raw ["in"; "a.cr2"] ["out"; "x"; "a.jpg"]
              (Some 384) 92 "jpg" w in
  (exists e, rw.1 = Raise e) /\
  (forall p c, files rw.2 !! p = Some (File c) -> files w !! p = Some (File c)) /\
  (rw.1 = Raise KeyError ->
   forall d rest, parent ["out"; "x"; "a.jpg"] = d ++ rest -> d <> [] ->
     files rw.2 !! d = Some Dir).
Proof.
  intros w rw.
  apply (unknown_format_never_writes ["in"; "a.cr2"] ["out"; "x"; "a.jpg"]
           (Some 384) 92 "jpg" w rw.1 rw.2).
  - intros kwargs img. reflexivity.
  - apply surjective_pairing.
Defined.

Lemma run_accounting_witness :
  let w := start shoot in
  let w' := (_do_convert ["in"] ["out"] "jpeg" (Some 384) 92 w).2 in
  exists notices skips calls,
    console w'
      = console w ++ notices ++ [Done (length (discover (files w) ["in"])) skips] /\
    Forall2 (notice_for ["in"] ["out"] "jpeg") (discover (files w) ["in"]) notices /\
    skips = length (List.filter is_skip notices) /\
    conversions w' = conversions w ++ calls /\
    (skips + length calls)%nat = length (discover (files w) ["in"]) /\
    pbar w' = length (discover (files w) ["in"]).
Proof.
  intros w w'.
  apply (run_accounting ["in"] ["out"] "jpeg" (Some 384) 92 w w').
  vm_compute. reflexivity.
Defined.

Lemma no_destination_converted_twice_witness :
  let w := start shoot in
  let w' := (_do_convert ["in"] ["out"] "jpeg" (Some 384) 92 w).2 in
  exists calls,
    conversions w' = conversions w ++ calls /\
    NoDup calls.*2 /\
    forall src dst, (src, dst) ∈ calls ->
      src ∈ discover (files w) ["in"] /\ entry_at (files w) dst = None.
Proof.
  intros w w'.
  apply (no_destination_converted_twice ["in"] ["out"] "jpeg" (Some 384) 92
           w (Ok tt) w').
  vm_compute. reflexivity.
Defined.

Lemma successful_run_leaves_every_destination_witness :
  let w := start shoot in
  let w' := (_do_convert ["in"] ["out"] "jpeg" (Some 384) 92 w).2 in
  exists out present,
    output_path_of ["in"] ["out"] "jpeg" ["in"; "z.Cr2"] = Ok out /\
    entry_at (files w') out = Some present.
Proof.
  intros w w'.
  apply (successful_run_leaves_every_destination ["in"] ["out"] "jpeg"
           (Some 384) 92 w w').
  - vm_compute. reflexivity.
  - apply (bool_decide_unpack _). vm_compute. exact I.
Defined.

Lemma refused_format_stops_before_any_work_witness :
  _do_convert ["in"] ["out"] "x/y" (Some 384) 92 (start shoot)
  = (Raise ValueError, opened (start shoot)).
Proof.
  apply (refused_format_stops_before_any_work ["in"] ["out"] "x/y"
           (Some 384) 92 (start shoot)).
  - vm_compute. discriminate.
  - vm_compute. reflexivity.
Defined.

Lemma exit_status_means_no_raw_files_witness :
  let w := start no_raw in
  let w' := (_do_convert ["in"] ["out"] "jpeg" (Some 384) 92 w).2 in
  1 = 1 /\ discover (files w) ["in"] = [] /\ files w' = files w.
Proof.
  intros w w'.
  apply (exit_status_means_no_raw_files ["in"] ["out"] "jpeg" (Some 384) 92
           w 1 w').
  vm_compute. reflexivity.
Defined.

Lemma do_convert_preserves_witness :
  let w := start shoot_corrupt in
  files w ⊆ files (_do_convert ["in"] ["out"] "jpeg" (Some 384) 92 w).2.
Proof.
  intros w.
  apply (do_convert_preserves ["in"] ["out"] "jpeg" (Some 384) 92 w
           (Raise LibRawError)).
  vm_compute. reflexivity.
Defined.

End MoreExamples.
